(** * SmartHub electric usage: the snapshot merge store and its timestamps

    A shallow embedding of [ElectricUsagewithPrices.py]: the timestamp
    formatter and parser ([convert_timestamp], [parse_datetime]), the price
    annotating normaliser ([process_data]) and the retention-windowed merge
    store ([save_to_json]), followed by the properties of the design
    specification that concern them.

    Conventions of the embedding.
    - A Python [str] is a [string]; its characters are the code points
      0..255.
    - A Python [float] is a binary64 [float] of the kernel.
    - An aware UTC [datetime] is the number of microseconds since
      1970-01-01T00:00:00Z, a [Z]; the type itself only holds the instants
      of the years 1..9999, and the operations that would leave that range
      raise.
    - A raised exception is the [Raise] outcome of [result]; a [dict] is an
      association list in insertion order; the snapshot file is an explicit
      [file_state] threaded through [save_to_json], and a [snapshot] where
      its bytes may be no text.
    - A key of a JSON object of the payload is a [field]: absent, [null] or
      a value. *)

From Stdlib Require Import ZArith Lia Floats Ascii String.
From stdpp Require Import base option list sorting gmap strings.

Local Open Scope Z_scope.

(** ** Exceptions *)

(** The exceptions the modelled code can raise. [OutOfRange] stands for what
    the [datetime] library raises when a value leaves the years 1..9999
    ([ValueError], [OverflowError] or [OSError], depending on the magnitude).
    [TypeError] is an operation on [None] that [None] does not support:
    a comparison with a [datetime], a division, a loop over it.
    [AttributeError] is a method call on [None]. [UnicodeDecodeError] is
    what reading a text file raises on bytes that are no text in the
    encoding of the locale. *)
Inductive exn : Type :=
  | TypeError
  | OutOfRange
  | AttributeError
  | UnicodeDecodeError.

Inductive result (A : Type) : Type :=
  | Ok (a : A)
  | Raise (e : exn).

Arguments Ok {A} a.
Arguments Raise {A} e.

#[global] Instance result_ret : MRet result := fun A a => Ok a.
#[global] Instance result_bind : MBind result := fun A B f m =>
  match m with
  | Ok a => f a
  | Raise e => Raise e
  end.

Definition is_ok {A : Type} (r : result A) : bool :=
  match r with
  | Ok _ => true
  | Raise _ => false
  end.

(** ** The [datetime] library, as far as the program uses it *)

Module Datetime.

Definition MINYEAR : Z := 1.
Definition MAXYEAR : Z := 9999.

Definition _DI400Y : Z := 146097.
Definition _DI100Y : Z := 36524.
Definition _DI4Y : Z := 1461.

(** [date(1970, 1, 1).toordinal()] *)
Definition EPOCH_ORDINAL : Z := 719163.

Definition _is_leap (year : Z) : bool :=
  (year mod 4 =? 0) && (negb (year mod 100 =? 0) || (year mod 400 =? 0)).

Definition _days_before_year (year : Z) : Z :=
  let y := year - 1 in
  y * 365 + y / 4 - y / 100 + y / 400.

Definition _DAYS_IN_MONTH : list Z :=
  [31; 28; 31; 30; 31; 30; 31; 31; 30; 31; 30; 31].

Definition _DAYS_BEFORE_MONTH : list Z :=
  [0; 31; 59; 90; 120; 151; 181; 212; 243; 273; 304; 334].

(** Both tables are indexed by the month number, from 1. *)
Definition table (t : list Z) (month : Z) : Z :=
  nth (Z.to_nat (month - 1)) t 0.

Definition _days_in_month (year month : Z) : Z :=
  if (month =? 2) && _is_leap year then 29 else table _DAYS_IN_MONTH month.

Definition _days_before_month (year month : Z) : Z :=
  table _DAYS_BEFORE_MONTH month
  + (if (2 <? month) && _is_leap year then 1 else 0).

Definition _ymd2ord (year month day : Z) : Z :=
  _days_before_year year + _days_before_month year month + day.

(** The year, month and day of the [n]-th day of a 400-year cycle,
    [0 <= n < _DI400Y]; the year counts from 1 within the cycle. *)
Definition _ord2ymd_cycle (n : Z) : Z * Z * Z :=
  let n100 := n / _DI100Y in
  let n := n mod _DI100Y in
  let n4 := n / _DI4Y in
  let n := n mod _DI4Y in
  let n1 := n / 365 in
  let n := n mod 365 in
  let year := 1 + n100 * 100 + n4 * 4 + n1 in
  if (n1 =? 4) || (n100 =? 4) then (year - 1, 12, 31)
  else
    let leapyear := (n1 =? 3) && (negb (n4 =? 24) || (n100 =? 3)) in
    let month := Z.shiftr (n + 50) 5 in
    let preceding :=
      table _DAYS_BEFORE_MONTH month
      + (if (2 <? month) && leapyear then 1 else 0) in
    if n <? preceding then
      let month := month - 1 in
      let preceding :=
        preceding
        - (table _DAYS_IN_MONTH month
           + (if (month =? 2) && leapyear then 1 else 0)) in
      (year, month, n - preceding + 1)
    else (year, month, n - preceding + 1).

Definition _ord2ymd (n : Z) : Z * Z * Z :=
  let n := n - 1 in
  let n400 := n / _DI400Y in
  let '(year, month, day) := _ord2ymd_cycle (n mod _DI400Y) in
  (n400 * 400 + year, month, day).

(** Seconds since the epoch of the first and of the last second a
    [datetime] can hold: 0001-01-01 00:00:00 and 9999-12-31 23:59:59. *)
Definition MIN_SECONDS : Z := (1 - EPOCH_ORDINAL) * 86400.
Definition MAX_SECONDS : Z :=
  (_ymd2ord MAXYEAR 12 31 - EPOCH_ORDINAL) * 86400 + 86399.

(** 1000-01-01 00:00:00, the first second of a four-digit year. *)
Definition YEAR_1000_SECONDS : Z := (_ymd2ord 1000 1 1 - EPOCH_ORDINAL) * 86400.

Definition seconds_in_range (s : Z) : bool :=
  (MIN_SECONDS <=? s) && (s <=? MAX_SECONDS).

(** Seconds since the epoch of a broken-down UTC time. *)
Definition utc_seconds (year month day hour minute second : Z) : Z :=
  (_ymd2ord year month day - EPOCH_ORDINAL) * 86400
  + hour * 3600 + minute * 60 + second.

(** *** Characters *)

Definition code (c : ascii) : Z := Z.of_N (N_of_ascii c).

(** The character of a decimal digit [0 <= d <= 9]. *)
Definition digit_char (d : Z) : ascii := ascii_of_N (Z.to_N (48 + d)).

Definition digit_val (c : ascii) : Z := code c - 48.

(** The regular expression class [[lo-hi]] of two decimal digits. *)
Definition cls (lo hi : Z) (c : ascii) : bool :=
  (48 + lo <=? code c) && (code c <=? 48 + hi).

(** [\d] *)
Definition is_digit (c : ascii) : bool := cls 0 9 c.

Definition is_char (x : ascii) (c : ascii) : bool := code c =? code x.

(** [\s] on the code points below 256: tab to carriage return, the four
    separators 28..31, the space, NEL and the no-break space. *)
Definition is_space (c : ascii) : bool :=
  let n := code c in
  ((9 <=? n) && (n <=? 13)) || ((28 <=? n) && (n <=? 32))
  || (n =? 133) || (n =? 160).

(** *** [strftime('%Y-%m-%d %H:%M:%S')] *)

Definition pad2 (n : Z) : string :=
  String (digit_char (n / 10)) (String (digit_char (n mod 10)) "").

(** [%Y] is the year in four digits, as documented. A C library that
    leaves the zeros out before the year 1000 differs there; the claims
    below are stated from the year 1000 on and do not depend on it. *)
Definition pad4 (n : Z) : string :=
  String (digit_char (n / 1000))
    (String (digit_char (n / 100 mod 10)) (pad2 (n mod 100))).

(** The text of the second [s] since the epoch, [s] in range. *)
Definition strftime (s : Z) : string :=
  let days := s / 86400 in
  let rem := s mod 86400 in
  let '(year, month, day) := _ord2ymd (days + EPOCH_ORDINAL) in
  (pad4 year ++ "-" ++ pad2 month ++ "-" ++ pad2 day ++ " "
   ++ pad2 (rem / 3600) ++ ":" ++ pad2 (rem mod 3600 / 60) ++ ":"
   ++ pad2 (rem mod 60))%string.

(** *** [strptime(_, '%Y-%m-%d %H:%M:%S')]

    [_strptime] compiles the format into the regular expression
<<
    (?P<Y>\d\d\d\d)-(?P<m>1[0-2]|0[1-9]|[1-9])-
    (?P<d>3[0-1]|[1-2]\d|0[1-9]|[1-9]| [1-9])\s+
    (?P<H>2[0-3]|[0-1]\d|\d):(?P<M>[0-5]\d|\d):(?P<S>6[0-1]|[0-5]\d|\d)
>>
    matches it at the start of the string and rejects a match that leaves
    text unconverted. Every group is followed by a character no digit
    alternative can begin with (or by the end of the pattern), so the
    first alternative that matches is the only one that can lead to a
    match and the expression is matched from left to right. *)

(** A two-character alternative [p1 p2] and a one-character one. *)
Definition alt2 (p1 p2 : ascii -> bool) (s : string) : option (Z * string) :=
  match s with
  | String a (String b r) =>
      if p1 a && p2 b then Some (10 * digit_val a + digit_val b, r) else None
  | _ => None
  end.

Definition alt1 (p : ascii -> bool) (s : string) : option (Z * string) :=
  match s with
  | String a r => if p a then Some (digit_val a, r) else None
  | _ => None
  end.

(** The alternative [ [1-9]] of [%d]: [int] skips the blank. *)
Definition alt_blank (p : ascii -> bool) (s : string) : option (Z * string) :=
  match s with
  | String a (String b r) =>
      if is_char " " a && p b then Some (digit_val b, r) else None
  | _ => None
  end.

Definition orelse {A : Type} (x y : option A) : option A :=
  match x with
  | Some _ => x
  | None => y
  end.

Infix "<|>" := orelse (at level 51, left associativity).

Definition re_Y (s : string) : option (Z * string) :=
  match s with
  | String a (String b (String c (String d r))) =>
      if is_digit a && is_digit b && is_digit c && is_digit d
      then Some (1000 * digit_val a + 100 * digit_val b
                 + 10 * digit_val c + digit_val d, r)
      else None
  | _ => None
  end.

Definition re_m (s : string) : option (Z * string) :=
  alt2 (is_char "1") (cls 0 2) s <|> alt2 (is_char "0") (cls 1 9) s
  <|> alt1 (cls 1 9) s.

Definition re_d (s : string) : option (Z * string) :=
  alt2 (is_char "3") (cls 0 1) s <|> alt2 (cls 1 2) is_digit s
  <|> alt2 (is_char "0") (cls 1 9) s <|> alt1 (cls 1 9) s
  <|> alt_blank (cls 1 9) s.

Definition re_H (s : string) : option (Z * string) :=
  alt2 (is_char "2") (cls 0 3) s <|> alt2 (cls 0 1) is_digit s
  <|> alt1 is_digit s.

Definition re_M (s : string) : option (Z * string) :=
  alt2 (cls 0 5) is_digit s <|> alt1 is_digit s.

Definition re_S (s : string) : option (Z * string) :=
  alt2 (is_char "6") (cls 0 1) s <|> alt2 (cls 0 5) is_digit s
  <|> alt1 is_digit s.

(** A literal character of the format. *)
Definition lit (x : ascii) (s : string) : option string :=
  match s with
  | String a r => if is_char x a then Some r else None
  | _ => None
  end.

Fixpoint skip_spaces (s : string) : string :=
  match s with
  | String a r => if is_space a then skip_spaces r else s
  | EmptyString => s
  end.

(** [\s+] *)
Definition re_spaces (s : string) : option string :=
  match s with
  | String a r => if is_space a then Some (skip_spaces r) else None
  | _ => None
  end.

(** The broken-down fields the expression extracts, or [None] when it does
    not match the whole string. *)
Definition match_format (data_string : string)
  : option (Z * Z * Z * Z * Z * Z) :=
  '(year, s) ← re_Y data_string;
  s ← lit "-" s;
  '(month, s) ← re_m s;
  s ← lit "-" s;
  '(day, s) ← re_d s;
  s ← re_spaces s;
  '(hour, s) ← re_H s;
  s ← lit ":" s;
  '(minute, s) ← re_M s;
  s ← lit ":" s;
  '(second, s) ← re_S s;
  match s with
  | EmptyString => Some (year, month, day, hour, minute, second)
  | _ => None
  end.

(** [datetime.strptime]: the second since the epoch of the text, or [None]
    where Python raises [ValueError]: no match, a year 0, a day the month
    does not have, or a second 60 or 61, which the expression admits and
    the [datetime] constructor refuses. *)
Definition strptime (data_string : string) : option Z :=
  '(year, month, day, hour, minute, second) ← match_format data_string;
  if (MINYEAR <=? year) && (day <=? _days_in_month year month)
     && (second <=? 59)
  then Some (utc_seconds year month day hour minute second)
  else None.

End Datetime.

(** ** [ElectricUsagewithPrices.py] *)

(** [convert_timestamp]. For an integer [timestamp_ms] the float quotient
    [timestamp_ms / 1000] is within 2^-16 s of the exact one as long as the
    result is a year up to 9999, [fromtimestamp] rounds it to a microsecond
    and [strftime] drops the microseconds: the second that is formatted is
    the floor of the quotient. Outside the years 1..9999 [fromtimestamp]
    raises. *)
Definition convert_timestamp (timestamp_ms : Z) : result string :=
  let timestamp_s := timestamp_ms / 1000 in
  if Datetime.seconds_in_range timestamp_s
  then Ok (Datetime.strftime timestamp_s)
  else Raise OutOfRange.

(** [parse_datetime]: [strptime], made aware with [replace(tzinfo=pytz.utc)],
    or [None] on [ValueError]. *)
Definition parse_datetime (date_str : string) : option Z :=
  match Datetime.strptime date_str with
  | Some s => Some (s * 1000000)
  | None => None
  end.

(** *** The upstream payload

    The nested JSON the utility returns: meter locations, each with channel
    readings, each with interval reads. A key of a JSON object is absent,
    present with [null], or present with a value; [dict.get] supplies its
    default for an absent key only and hands a [null] back as [None]. *)

Inductive field (A : Type) : Type :=
  | Absent
  | Null
  | Present (a : A).

Arguments Absent {A}.
Arguments Null {A}.
Arguments Present {A} a.

(** [obj.get(key, fallback)] *)
Definition get_or {A : Type} (fallback : A) (f : field A) : option A :=
  match f with
  | Absent => Some fallback
  | Null => None
  | Present a => Some a
  end.

(** [obj.get(key)] *)
Definition get_field {A : Type} (f : field A) : option A :=
  match f with
  | Absent | Null => None
  | Present a => Some a
  end.

(** [obj.get(...)] where [obj] may be [None]:
    ['NoneType' object has no attribute 'get']. *)
Definition attribute {A : Type} (obj : option A) : result A :=
  match obj with
  | Some a => Ok a
  | None => Raise AttributeError
  end.

(** [for x in xs] where [xs] may be [None]:
    ['NoneType' object is not iterable]. *)
Definition iterable {A : Type} (xs : option (list A)) : result (list A) :=
  match xs with
  | Some l => Ok l
  | None => Raise TypeError
  end.

Record metrics_t : Type := { total : field float }.

Record interval_t : Type := { start : field Z }.

Record read_t : Type := {
  interval : field interval_t;
  metrics : field metrics_t
}.

Record reading_t : Type := { reads : field (list read_t) }.

Record item_t : Type := { readings : field (list reading_t) }.

(** A normalised row, the object with the keys ['Start Time'], ['Total'] and
    ['Price']. *)
Record row : Type := {
  Start_Time : string;
  Total : float;
  Price : float
}.

(** [x or 0.0]: a float is falsy when it compares equal to zero. *)
Definition or_zero (x : option float) : float :=
  match x with
  | Some v => if PrimFloat.eqb v 0%float then 0%float else v
  | None => 0%float
  end.

(** A [for] loop whose body may raise, over an accumulated state. *)
Fixpoint for_each {A St : Type} (body : St -> A -> result St)
    (xs : list A) (st : St) : result St :=
  match xs with
  | [] => Ok st
  | x :: xs => st ← body st x; for_each body xs st
  end.

(** The body of the innermost loop of [process_data], statement by
    statement: [interval.get] on a null interval raises; a null start time
    reaches [convert_timestamp], whose division raises; [metrics.get] on null
    metrics raises after that. A null total is [None or 0.0]. *)
Definition process_read (price_per_kw : float) (output : list row)
    (read : read_t) : result (list row) :=
  let interval := get_or {| start := Absent |} (interval read) in
  interval ← attribute interval;
  let start_time := get_or 0 (start interval) in
  let metrics := get_or {| total := Absent |} (metrics read) in
  start_time_formatted ← match start_time with
                         | Some timestamp_ms => convert_timestamp timestamp_ms
                         | None => Raise TypeError
                         end;
  metrics ← attribute metrics;
  let total := or_zero (get_or 0%float (total metrics)) in
  let price := (total * price_per_kw)%float in
  Ok (output ++ [ {| Start_Time := start_time_formatted;
                     Total := total;
                     Price := price |} ]).

Definition process_data (data : list item_t) (price_per_kw : float)
  : result (list row) :=
  for_each (fun output item =>
    readings ← iterable (get_or [] (readings item));
    for_each (fun output reading =>
      reads ← iterable (get_or [] (reads reading));
      for_each (process_read price_per_kw) reads output)
      readings output)
    data [].

(** *** The merge store *)

(** A [dict] from ['Start Time'] strings to rows: the bindings in insertion
    order, every key bound once. *)
Abbreviation dict := (list (string * row)).

(** [d[k] = v]: an existing key keeps its position, a new key goes last. *)
Fixpoint dict_set (k : string) (v : row) (d : dict) : dict :=
  match d with
  | [] => [(k, v)]
  | (k', v') :: d' =>
      if decide (k = k') then (k, v) :: d' else (k', v') :: dict_set k v d'
  end.

Fixpoint dict_get (k : string) (d : dict) : option row :=
  match d with
  | [] => None
  | (k', v') :: d' => if decide (k = k') then Some v' else dict_get k d'
  end.

Definition dict_keys (d : dict) : list string := d.*1.

Definition dict_values (d : dict) : list row := d.*2.

(** [for entry in entries: d[entry['Start Time']] = entry], which is also
    what the comprehension [{entry['Start Time']: entry for entry in ...}]
    does from the empty [dict]. *)
Definition merge_entries (d : dict) (entries : list row) : dict :=
  foldl (fun d entry => dict_set (Start_Time entry) entry d) d entries.

(** Lines 146 to 149: [existing_data_dict] once the incoming rows are in. *)
Definition merged_dict (existing_data data : list row) : dict :=
  let existing_data_dict := merge_entries [] existing_data in
  merge_entries existing_data_dict data.

(** The [dict] as a finite map, forgetting the insertion order: two dicts
    are [==] in Python when these maps are equal. *)
Definition dict_to_map (d : dict) : gmap string row := list_to_map d.

(** The snapshot file where it is absent or holds text: absent, present with
    text that [json.load] rejects with [JSONDecodeError], or present with a
    list of rows. *)
Inductive file_state : Type :=
  | FileMissing
  | FileNotJSON
  | FileJSON (rows : list row).

(** [json.load] under [except (FileNotFoundError, json.JSONDecodeError)],
    for the two exceptions the clause names. *)
Definition load_existing (output_file : file_state) : list row :=
  match output_file with
  | FileJSON rows => rows
  | FileMissing | FileNotJSON => []
  end.

Definition MIN_DATETIME : Z := Datetime.MIN_SECONDS * 1000000.
Definition MAX_DATETIME : Z := Datetime.MAX_SECONDS * 1000000 + 999999.

(** [datetime.timedelta(days=days)], in microseconds. *)
Definition timedelta_days (days : Z) : result Z :=
  if (-999999999 <=? days) && (days <=? 999999999)
  then Ok (days * 86400 * 1000000)
  else Raise OutOfRange.

(** [dt - delta] on a [datetime]. *)
Definition datetime_sub (dt delta : Z) : result Z :=
  let r := dt - delta in
  if (MIN_DATETIME <=? r) && (r <=? MAX_DATETIME) then Ok r
  else Raise OutOfRange.

(** [current_time - datetime.timedelta(days=retain_days)] *)
Definition retention_cutoff (current_time retain_days : Z) : result Z :=
  delta ← timedelta_days retain_days;
  datetime_sub current_time delta.

(** The condition of the comprehension: [None >= retention_cutoff] raises
    [TypeError]. *)
Definition not_expired (cutoff : Z) (entry : row) : result bool :=
  match parse_datetime (Start_Time entry) with
  | Some t => Ok (cutoff <=? t)
  | None => Raise TypeError
  end.

(** [[entry for entry in entries if parse_datetime(...) >= cutoff]] *)
Fixpoint filter_entries (cutoff : Z) (entries : list row)
  : result (list row) :=
  match entries with
  | [] => Ok []
  | entry :: entries =>
      b ← not_expired cutoff entry;
      rest ← filter_entries cutoff entries;
      Ok (if b : bool then entry :: rest else rest)
  end.

(** Lines 143 to 151 of [save_to_json]: the list that is about to be
    written, from the loaded rows, the incoming rows and the clock. *)
Definition filtered_data (existing_data data : list row)
    (retain_days current_time : Z) : result (list row) :=
  cutoff ← retention_cutoff current_time retain_days;
  filter_entries cutoff (dict_values (merged_dict existing_data data)).

(** [save_to_json] on a snapshot file that is absent or holds text, with the
    clock reading [current_time] and the file as explicit state: the
    outcome and the file afterwards. The file is opened for writing only
    once the list is computed, so a raise leaves it as it was. The file
    whose bytes are no text is added by [save_to_json_on] below. *)
Definition save_to_json (data : list row) (output_file : file_state)
    (retain_days current_time : Z) : result unit * file_state :=
  let existing_data := load_existing output_file in
  match filtered_data existing_data data retain_days current_time with
  | Ok rows => (Ok (), FileJSON rows)
  | Raise e => (Raise e, output_file)
  end.

(** The snapshot file as [open(output_file, 'r')] finds it: bytes that are no
    text in the encoding of the locale, or a file in one of the states of
    [file_state]. *)
Inductive snapshot : Type :=
  | Undecodable
  | Decodable (output_file : file_state).

(** [save_to_json] on any snapshot. The [except] clause names
    [FileNotFoundError] and [json.JSONDecodeError] only, so the
    [UnicodeDecodeError] of undecodable bytes leaves the function, before
    anything is computed or written. *)
Definition save_to_json_on (data : list row) (file : snapshot)
    (retain_days current_time : Z) : result unit * snapshot :=
  match file with
  | Undecodable => (Raise UnicodeDecodeError, Undecodable)
  | Decodable output_file =>
      let '(outcome, output_file) :=
        save_to_json data output_file retain_days current_time in
      (outcome, Decodable output_file)
  end.

(** *** The window of a fetch

    [calculate_date_range] is the same in the three scripts. Its datetimes
    are naive: microseconds on the local wall clock since 1970-01-01
    00:00:00, in the range of [datetime]. *)

Definition DAY : Z := 86400 * 1000000.

(** [dt.replace(hour=hour, minute=minute, second=second)]: the date and the
    microsecond stay. *)
Definition replace_time (dt hour minute second : Z) : Z :=
  dt / DAY * DAY + (hour * 3600 + minute * 60 + second) * 1000000
  + dt mod 1000000.

(** [calculate_date_range], with the reading [now] of [datetime.now()]. *)
Definition calculate_date_range (now days : Z) : result (Z * Z) :=
  let end_date := replace_time now 23 59 59 in
  delta ← timedelta_days (days - 1);
  start_date ← datetime_sub end_date delta;
  Ok (start_date, end_date).

(** *** The configuration

    [yaml.safe_load] answers a mapping from keys to YAML values, and
    [config_data.get(key)] is [None] for a key the file does not have. *)

#[local] Unset Elimination Schemes.
Inductive yaml : Type :=
  | YNull
  | YBool (b : bool)
  | YInt (n : Z)
  | YFloat (x : float)
  | YStr (s : string)
  | YMap (entries : list (string * yaml)).
#[local] Set Elimination Schemes.

Definition yaml_get (config_data : gmap string yaml) (key : string) : yaml :=
  default YNull (config_data !! key).

(** A call [f(k1=v1, ..., kn=vn)] of a function whose parameters are
    [params], none with a default: Python raises [TypeError] for a keyword
    that is no parameter and for a parameter that gets no argument. *)
Definition bind_keywords (params : list string)
    (kwargs : list (string * yaml)) : result (gmap string yaml) :=
  if decide (Forall (fun kw => kw.1 ∈ params) kwargs
             /\ Forall (fun p => p ∈ kwargs.*1) params)
  then Ok (list_to_map kwargs)
  else Raise TypeError.

(** [Config] and [load_config] of [ElectricUsagewithPrices.py]. *)
Module PricesConfig.

Record Config : Type := {
  api_url : yaml;
  username : yaml;
  password : yaml;
  account : yaml;
  service_location : yaml;
  extract_days : yaml;
  output_file_usage : yaml;
  price_per_kw : yaml;
  retain_days : yaml;
  influxdb : yaml
}.

(** The parameters of [Config.__init__], after [self]. *)
Definition Config_params : list string :=
  ["api_url"; "username"; "password"; "account"; "service_location";
   "extract_days"; "output_file_usage"; "price_per_kw"; "retain_days";
   "influxdb"]%string.

Definition Config_init (kwargs : list (string * yaml)) : result Config :=
  args ← bind_keywords Config_params kwargs;
  Ok {| api_url := yaml_get args "api_url";
        username := yaml_get args "username";
        password := yaml_get args "password";
        account := yaml_get args "account";
        service_location := yaml_get args "service_location";
        extract_days := yaml_get args "extract_days";
        output_file_usage := yaml_get args "output_file_usage";
        price_per_kw := yaml_get args "price_per_kw";
        retain_days := yaml_get args "retain_days";
        influxdb := yaml_get args "influxdb" |}.

(** [load_config], from the mapping [yaml.safe_load] returned. *)
Definition load_config (config_data : gmap string yaml) : result Config :=
  Config_init
    [("api_url", yaml_get config_data "api_url");
     ("username", yaml_get config_data "username");
     ("password", yaml_get config_data "password");
     ("account", yaml_get config_data "account");
     ("service_location", yaml_get config_data "service_location");
     ("extract_days", yaml_get config_data "extract_days");
     ("output_file_usage", yaml_get config_data "output_file_usage");
     ("price_per_kw", yaml_get config_data "price_per_kw");
     ("retain_days", yaml_get config_data "retain_days");
     ("influxdb", yaml_get config_data "influxdb");
     ("interval", yaml_get config_data "interval")]%string.

End PricesConfig.

(** [Config] and [load_config] of [ElectricRawJSON.py]. *)
Module RawJSONConfig.

Record Config : Type := {
  api_url : yaml;
  username : yaml;
  password : yaml;
  account : yaml;
  service_location : yaml;
  extract_days : yaml;
  output_file_usage : yaml;
  interval : yaml
}.

Definition Config_params : list string :=
  ["api_url"; "username"; "password"; "account"; "service_location";
   "extract_days"; "output_file_usage"; "interval"]%string.

Definition Config_init (kwargs : list (string * yaml)) : result Config :=
  args ← bind_keywords Config_params kwargs;
  Ok {| api_url := yaml_get args "api_url";
        username := yaml_get args "username";
        password := yaml_get args "password";
        account := yaml_get args "account";
        service_location := yaml_get args "service_location";
        extract_days := yaml_get args "extract_days";
        output_file_usage := yaml_get args "output_file_usage";
        interval := yaml_get args "interval" |}.

Definition load_config (config_data : gmap string yaml) : result Config :=
  Config_init
    [("api_url", yaml_get config_data "api_url");
     ("username", yaml_get config_data "username");
     ("password", yaml_get config_data "password");
     ("account", yaml_get config_data "account");
     ("service_location", yaml_get config_data "service_location");
     ("extract_days", yaml_get config_data "extract_days");
     ("output_file_usage", yaml_get config_data "output_file_usage");
     ("interval", yaml_get config_data "interval")]%string.

End RawJSONConfig.

(** *** [ElectricRawDataInfluxDB.py]: the time-series sink *)

(** A [for] loop over a state that outlives a raise: what the body printed
    or appended before the exception stays. *)
Fixpoint for_each_st {A St : Type} (body : St -> A -> St * option exn)
    (xs : list A) (st : St) : St * option exn :=
  match xs with
  | [] => (st, None)
  | x :: xs =>
      match body st x with
      | (st, None) => for_each_st body xs st
      | (st, Some e) => (st, Some e)
      end
  end.

Module RawInflux.

(** The payload, with the fields this script reads. The values it only
    passes on (the three metrics, the three tags) are [None] when the key is
    absent or [null], which [dict.get] without a default does not tell
    apart; the objects and lists it goes into are a [field], since a [null]
    in their place raises. *)
Record metrics_t : Type := {
  total : option float;
  minimum : option float;
  maximum : option float
}.

Record read_t : Type := {
  interval : field interval_t;
  metrics : field metrics_t
}.

Record reading_t : Type := {
  meterId : option string;
  channel : option string;
  reads : field (list read_t)
}.

Record item_t : Type := {
  meterLocation : option string;
  readings : field (list reading_t)
}.

(** The bytes [fetch_data] returned, as [json.loads] sees them. *)
Inductive payload : Type :=
  | NotJSON
  | JSON (json_data : list item_t).

(** A [Point("energy_usage")] with its three tags, its three fields and its
    time. *)
Record Point : Type := {
  tag_location : option string;
  tag_meter_id : option string;
  tag_channel : option string;
  total_kwh : option float;
  min_kwh : option float;
  max_kwh : option float;
  time : Z
}.

(** What the script prints. *)
Inductive message : Type :=
  | ErrorDecodingJSON
  | SkippingPoint (timestamp : Z)
  | NoValidPoints.

(** The console and the bucket: the messages printed and the batches
    [write_api.write] was called with, oldest first. *)
Record service : Type := {
  printed : list message;
  written : list (list Point)
}.

Section with_clock_library.

(** [datetime.datetime.utcfromtimestamp(start_time / 1000)
    .replace(tzinfo=pytz.utc)] for an integer [start_time]: the instant in
    microseconds, or the raise for a time outside the years 1..9999. The
    microsecond comes from a float quotient; the conversion is taken as
    given, and what follows holds for whatever it answers. *)
Variable utcfromtimestamp : Z -> result Z.

(** The body of the innermost loop, on the points queued and the messages
    printed so far, statement by statement: [interval.get] on a null
    interval raises, then [metrics.get] on null metrics; a read without
    ['start'], or with a null one, has [start_time = None], and
    [None / 1000] raises [TypeError]. *)
Definition check_read (retention_period_end : Z)
    (meter_location meter_id channel : option string)
    (st : list Point * list message) (read : read_t)
  : (list Point * list message) * option exn :=
  let '(points, out) := st in
  let interval := get_or {| start := Absent |} (interval read) in
  match attribute interval with
  | Raise e => (st, Some e)
  | Ok interval =>
      let start_time := get_field (start interval) in
      let metrics :=
        get_or {| total := None; minimum := None; maximum := None |}
          (metrics read) in
      match attribute metrics with
      | Raise e => (st, Some e)
      | Ok metrics =>
          match start_time with
          | None => (st, Some TypeError)
          | Some start_time =>
              match utcfromtimestamp start_time with
              | Raise e => (st, Some e)
              | Ok timestamp =>
                  if timestamp <? retention_period_end
                  then ((points, out ++ [SkippingPoint timestamp]), None)
                  else
                    let point :=
                      {| tag_location := meter_location;
                         tag_meter_id := meter_id;
                         tag_channel := channel;
                         total_kwh := total metrics;
                         min_kwh := minimum metrics;
                         max_kwh := maximum metrics;
                         time := timestamp |} in
                    ((points ++ [point], out), None)
              end
          end
      end
  end.

(** [write_to_influxdb], with the clock reading [now] and the console and
    bucket as explicit state; [Some e] is the exception that ended it. *)
Definition write_to_influxdb (data : payload) (retention_days now : Z)
    (svc : service) : service * option exn :=
  match data with
  | NotJSON =>
      ({| printed := printed svc ++ [ErrorDecodingJSON];
          written := written svc |}, None)
  | JSON json_data =>
      match retention_cutoff now retention_days with
      | Raise e => (svc, Some e)
      | Ok retention_period_end =>
          let '((points, out), raised) :=
            for_each_st (fun st item =>
              match iterable (get_or [] (readings item)) with
              | Raise e => (st, Some e)
              | Ok readings =>
                  for_each_st (fun st reading =>
                    match iterable (get_or [] (reads reading)) with
                    | Raise e => (st, Some e)
                    | Ok reads =>
                        for_each_st
                          (check_read retention_period_end
                             (meterLocation item) (meterId reading)
                             (channel reading))
                          reads st
                    end)
                    readings st
              end)
              json_data ([], printed svc) in
          match raised with
          | Some e => ({| printed := out; written := written svc |}, Some e)
          | None =>
              match points with
              | [] =>
                  ({| printed := out ++ [NoValidPoints];
                      written := written svc |}, None)
              | _ :: _ =>
                  ({| printed := out; written := written svc ++ [points] |},
                   None)
              end
          end
      end
  end.

(** The reads of a payload with the tags of their meter and channel, in the
    order of the loops; a null list has no reads. *)
Definition tagged_reads (json_data : list item_t)
  : list (option string * option string * option string * read_t) :=
  item ← json_data;
  reading ← default [] (get_field (readings item));
  read ← default [] (get_field (reads reading));
  [(meterLocation item, meterId reading, channel reading, read)].

(** The steps of the loops in their order: a read with its tags, or [None]
    for a null in the place of a list, where the loop over it raises. *)
Definition loop_steps (json_data : list item_t)
  : list (option (option string * option string * option string * read_t)) :=
  item ← json_data;
  match readings item with
  | Null => [None]
  | _ =>
      reading ← default [] (get_field (readings item));
      match reads reading with
      | Null => [None]
      | _ =>
          read ← default [] (get_field (reads reading));
          [Some (meterLocation item, meterId reading, channel reading, read)]
      end
  end.

(** One step of the loops, on the points queued and the messages printed so
    far. *)
Definition check_step (retention_period_end : Z)
    (st : list Point * list message)
    (step : option (option string * option string * option string * read_t))
  : (list Point * list message) * option exn :=
  match step with
  | Some tr =>
      check_read retention_period_end tr.1.1.1 tr.1.1.2 tr.1.2 st tr.2
  | None => (st, Some TypeError)
  end.

(** The instant of a read, as the loop body computes it, or the exception
    the body raises on the way to it. *)
Definition instant (read : read_t) : result Z :=
  interval ← attribute (get_or {| start := Absent |} (interval read));
  _ ← attribute
        (get_or {| total := None; minimum := None; maximum := None |}
           (metrics read));
  match get_field (start interval) with
  | None => Raise TypeError
  | Some start_time => utcfromtimestamp start_time
  end.

(** The point of a read that passes the retention check at [cutoff]. *)
Definition point_of (cutoff : Z)
    (tr : option string * option string * option string * read_t)
  : option Point :=
  let '(meter_location, meter_id, channel, read) := tr in
  let metrics :=
    default {| total := None; minimum := None; maximum := None |}
      (get_field (metrics read)) in
  match instant read with
  | Ok timestamp =>
      if timestamp <? cutoff then None
      else Some {| tag_location := meter_location;
                   tag_meter_id := meter_id;
                   tag_channel := channel;
                   total_kwh := total metrics;
                   min_kwh := minimum metrics;
                   max_kwh := maximum metrics;
                   time := timestamp |}
  | Raise _ => None
  end.

(** The message of a read that fails the retention check at [cutoff]. *)
Definition skip_of (cutoff : Z)
    (tr : option string * option string * option string * read_t)
  : option message :=
  match instant tr.2 with
  | Ok timestamp =>
      if timestamp <? cutoff then Some (SkippingPoint timestamp) else None
  | Raise _ => None
  end.

End with_clock_library.

End RawInflux.

(** The conversion where the float quotient is exact to the microsecond,
    as it is for an integer [start_time] of this century; the sample runs
    below use it. *)
Definition exact_utcfromtimestamp (start_time : Z) : result Z :=
  if Datetime.seconds_in_range (start_time / 1000)
  then Ok (start_time * 1000)
  else Raise OutOfRange.

(** A read of one meter and channel, from [start_time] if it has one. *)
Definition sample_raw_read (start_time : field Z) : RawInflux.read_t :=
  {| RawInflux.interval := Present {| start := start_time |};
     RawInflux.metrics :=
       Present {| RawInflux.total := Some 10%float;
                  RawInflux.minimum := None;
                  RawInflux.maximum := None |} |}.

Definition sample_raw_payload (reads : list RawInflux.read_t)
  : list RawInflux.item_t :=
  [ {| RawInflux.meterLocation := Some "home"%string;
       RawInflux.readings :=
         Present [ {| RawInflux.meterId := Some "M1"%string;
                      RawInflux.channel := Some "1"%string;
                      RawInflux.reads := Present reads |} ] |} ].

(** Reads of 2024-01-01 and of 2024-01-02, 00:00:00 UTC. *)
Definition sample_raw_data : list RawInflux.item_t :=
  sample_raw_payload [sample_raw_read (Present 1704067200000);
                      sample_raw_read (Present 1704153600000)].

(** A read of 2024-01-02 followed by one without ['start']. *)
Definition sample_raw_data_bad : list RawInflux.item_t :=
  sample_raw_payload [sample_raw_read (Present 1704153600000);
                      sample_raw_read Absent].

Definition empty_service : RawInflux.service :=
  {| RawInflux.printed := []; RawInflux.written := [] |}.

(** The run on the two sample reads at 2024-01-03 00:00:00 UTC, with one day
    of retention. *)
Definition sample_raw_run : RawInflux.service * option exn :=
  RawInflux.write_to_influxdb exact_utcfromtimestamp
    (RawInflux.JSON sample_raw_data) 1 (1704240000 * 1000000) empty_service.

(** ** Notions the properties are stated with *)

(** Sorted ascending by timestamp: every row parses and no row is later
    than a row after it. *)
Definition timestamp_le (a b : row) : Prop :=
  match parse_datetime (Start_Time a), parse_datetime (Start_Time b) with
  | Some ta, Some tb => ta <= tb
  | _, _ => False
  end.

Definition sorted_by_timestamp (rows : list row) : Prop :=
  StronglySorted timestamp_le rows.

(** The row that holds the key [k] last in [entries], if any. *)
Fixpoint last_entry (k : string) (entries : list row) : option row :=
  match entries with
  | [] => None
  | entry :: entries =>
      match last_entry k entries with
      | Some e => Some e
      | None => if decide (k = Start_Time entry) then Some entry else None
      end
  end.

(** A [dict] the merge can build: no key twice, and every row under its own
    ['Start Time']. *)
Definition dict_wf (d : dict) : Prop :=
  NoDup (dict_keys d) /\ Forall (fun kv => kv.1 = Start_Time kv.2) d.

(** The rows whose ['Start Time'] parses. *)
Definition parses (entry : row) : Prop :=
  is_Some (parse_datetime (Start_Time entry)).

(** The key [k] is a timestamp that is not before [cutoff]. *)
Definition fresh (cutoff : Z) (k : string) : bool :=
  match parse_datetime k with
  | Some t => cutoff <=? t
  | None => false
  end.

(** The bindings of [d] whose key satisfies [P], in order. *)
Definition dict_filter (P : string -> bool) (d : dict) : dict :=
  filter (fun kv => P kv.1) d.

(** The rows whose key satisfies [P], in order. *)
Definition filter_rows (P : string -> bool) (entries : list row) : list row :=
  filter (fun e => P (Start_Time e)) entries.

(** What the loop over the incoming rows does to the finite map. *)
Definition insert_entries (m : gmap string row) (entries : list row)
  : gmap string row :=
  foldl (fun m e => <[Start_Time e := e]> m) m entries.

(** The keys [ks] in the order a [dict] first sees them, after the keys
    [seen] it holds already. *)
Fixpoint first_occurrences (seen ks : list string) : list string :=
  match ks with
  | [] => seen
  | k :: ks =>
      first_occurrences (if decide (k ∈ seen) then seen else seen ++ [k]) ks
  end.

(** Retention correctness of one run: the run completes, and the rows it
    writes are the merged rows that are not before
    [current_time - retain_days] days. *)
Definition prunes_exactly (data : list row) (output_file : file_state)
    (retain_days current_time : Z) : Prop :=
  exists rows,
    save_to_json data output_file retain_days current_time
    = (Ok (), FileJSON rows)
    /\ forall entry,
         entry ∈ rows <->
         entry ∈ dict_values (merged_dict (load_existing output_file) data)
         /\ exists t, parse_datetime (Start_Time entry) = Some t
                      /\ current_time - retain_days * 86400000000 <= t.

(** The interval reads of a payload, in the order the three loops of
    [process_data] visit them. *)
Definition all_reads (data : list item_t) : list read_t :=
  item ← data;
  reading ← default [] (get_field (readings item));
  default [] (get_field (reads reading)).

(** The steps of those loops in their order: a read, or [None] for a null in
    the place of a list, where the loop over it raises. *)
Definition read_steps (data : list item_t) : list (option read_t) :=
  item ← data;
  match readings item with
  | Null => [None]
  | _ =>
      reading ← default [] (get_field (readings item));
      match reads reading with
      | Null => [None]
      | _ => Some <$> default [] (get_field (reads reading))
      end
  end.

(** One step of the loops, on the rows made so far. *)
Definition process_step (price_per_kw : float) (output : list row)
    (step : option read_t) : result (list row) :=
  match step with
  | Some read => process_read price_per_kw output read
  | None => Raise TypeError
  end.

(** [read.get('interval', {}).get('start', 0)], where it is a number. *)
Definition read_start (read : read_t) : result Z :=
  interval ← attribute (get_or {| start := Absent |} (interval read));
  match get_or 0 (start interval) with
  | Some start_time => Ok start_time
  | None => Raise TypeError
  end.

(** [read.get('metrics', {}).get('total', 0.0) or 0.0] *)
Definition read_total (read : read_t) : result float :=
  metrics ← attribute (get_or {| total := Absent |} (metrics read));
  Ok (or_zero (get_or 0%float (total metrics))).

(** The round trip of one timestamp: it is formatted, and the text parses
    back to the instant of its whole second. *)
Definition round_trips (timestamp_ms : Z) : Prop :=
  exists s,
    convert_timestamp timestamp_ms = Ok s
    /\ parse_datetime s = Some (timestamp_ms / 1000 * 1000000).

(** [f] holds of the [n] integers from [lo]. *)
Fixpoint all_from (f : Z -> bool) (lo : Z) (n : nat) : bool :=
  match n with
  | O => true
  | S n => if f lo then all_from f (lo + 1) n else false
  end.

(** What the day [n] of a 400-year cycle has to satisfy: its date is a date
    of the calendar, the ordinal of that date is [n + 1], and the last year
    of the cycle only begins on its last 366 days. *)
Definition cycle_ok (n : Z) : bool :=
  let '(year, month, day) := Datetime._ord2ymd_cycle n in
  (1 <=? year) && (year <=? 400)
  && (1 <=? month) && (month <=? 12)
  && (1 <=? day) && (day <=? Datetime._days_in_month year month)
  && (Datetime._ymd2ord year month day =? n + 1)
  && ((year <=? 399) || (145731 <=? n)).

(** *** Sample data *)

(** The unit price 0.15, as the nearest binary64. *)
Definition sample_price : float := 0x1.3333333333333p-3%float.

Definition sample_row (start_time : string) (total : float) : row :=
  {| Start_Time := start_time;
     Total := total;
     Price := (total * sample_price)%float |}.

(** One meter with one channel and one read: 10 kWh from 2024-01-01
    00:00:00 UTC. *)
Definition sample_payload : list item_t :=
  [ {| readings := Present
         [ {| reads := Present
                [ {| interval := Present {| start := Present 1704067200000 |};
                     metrics := Present {| total := Present 10%float |} |} ]
           |} ]
    |} ].

(** What [process_data] makes of a read: the row of that read at the unit
    price [price_per_kw]. *)
Definition row_of_read (price_per_kw : float) (r : row) (read : read_t)
  : Prop :=
  (exists start_time,
     read_start read = Ok start_time
     /\ convert_timestamp start_time = Ok (Start_Time r))
  /\ read_total read = Ok (Total r)
  /\ Price r = (Total r * price_per_kw)%float.

(** 2024-01-03 00:00:00 UTC, in microseconds. *)
Definition sample_now : Z := 1704240000 * 1000000.

Definition T1 : string := "2024-01-01 00:00:00".
Definition T2 : string := "2024-01-02 00:00:00".

(** * Properties *)

(** ** The timestamps and the store on sample values *)

Example convert_timestamp_epoch :
  convert_timestamp 0 = Ok "1970-01-01 00:00:00"%string.
Proof. reflexivity. Qed.

Example convert_timestamp_2024 :
  convert_timestamp 1709251199999 = Ok "2024-02-29 23:59:59"%string.
Proof. reflexivity. Qed.

Example convert_timestamp_before_epoch :
  convert_timestamp (-1) = Ok "1969-12-31 23:59:59"%string.
Proof. reflexivity. Qed.

Example parse_datetime_2024 :
  parse_datetime "2024-02-29 23:59:59" = Some (1709251199 * 1000000).
Proof. reflexivity. Qed.

Example parse_datetime_lenient :
  parse_datetime "2024-2-9   7:5:3" = parse_datetime "2024-02-09 07:05:03".
Proof. reflexivity. Qed.

Example parse_datetime_no_such_day :
  parse_datetime "2023-02-29 00:00:00" = None.
Proof. reflexivity. Qed.

Example parse_datetime_garbage : parse_datetime "yesterday" = None.
Proof. reflexivity. Qed.

(** The end-to-end scenario of the specification. *)
Example save_to_json_scenario :
  save_to_json [sample_row T1 12; sample_row T2 3]
    (FileJSON [sample_row T1 10]) 30 sample_now
  = (Ok (), FileJSON [sample_row T1 12; sample_row T2 3]).
Proof. reflexivity. Qed.

Example save_to_json_nothing :
  save_to_json [] FileMissing 30 sample_now = (Ok (), FileJSON []).
Proof. reflexivity. Qed.

(** ** The [dict] *)

Section dict_facts.
Implicit Types (d : dict) (k : string) (v : row) (entries : list row).

Lemma dict_get_set k k' v d :
  dict_get k' (dict_set k v d)
  = if decide (k' = k) then Some v else dict_get k' d.
Proof.
  induction d as [|[k0 v0] d IH]; simpl.
  - repeat case_decide; congruence.
  - repeat (case_decide; simpl); try congruence.
Qed.

Lemma dict_get_None k d : dict_get k d = None <-> k ∉ dict_keys d.
Proof.
  unfold dict_keys. induction d as [|[k0 v0] d IH]; simpl.
  - split; [intros _; apply not_elem_of_nil | done].
  - rewrite not_elem_of_cons. case_decide; subst.
    + split; [done | intros [? _]; done].
    + rewrite IH. tauto.
Qed.

Lemma dict_get_elem k v d : dict_get k d = Some v -> (k, v) ∈ d.
Proof.
  induction d as [|[k0 v0] d IH]; simpl; [done|].
  case_decide; subst.
  - intros [= ->]. left.
  - intros ?. right. auto.
Qed.

Lemma dict_set_fresh k v d :
  k ∉ dict_keys d -> dict_set k v d = d ++ [(k, v)].
Proof.
  unfold dict_keys. induction d as [|[k0 v0] d IH]; simpl; [done|].
  rewrite not_elem_of_cons. intros [? ?].
  case_decide; [done|]. by rewrite IH.
Qed.

Lemma dict_keys_set_in k v d :
  k ∈ dict_keys d -> dict_keys (dict_set k v d) = dict_keys d.
Proof.
  unfold dict_keys. induction d as [|[k0 v0] d IH]; simpl.
  - intros H. by apply elem_of_nil in H.
  - intros H. case_decide; subst; simpl; [done|].
    apply elem_of_cons in H as [?|?]; [done|]. f_equal. by apply IH.
Qed.

Lemma dict_keys_set k v d :
  dict_keys (dict_set k v d)
  = if decide (k ∈ dict_keys d) then dict_keys d else dict_keys d ++ [k].
Proof.
  case_decide.
  - by apply dict_keys_set_in.
  - rewrite dict_set_fresh by done. unfold dict_keys. by rewrite fmap_app.
Qed.

Lemma dict_keys_set_elem k k' v d :
  k' ∈ dict_keys (dict_set k v d) <-> k' = k \/ k' ∈ dict_keys d.
Proof.
  rewrite dict_keys_set. case_decide.
  - split; [auto | intros [->|?]; done].
  - rewrite elem_of_app, list_elem_of_singleton. tauto.
Qed.

Lemma dict_wf_nil : dict_wf [].
Proof. split; [apply NoDup_nil_2 | apply Forall_nil_2]. Qed.

Lemma dict_set_Forall (P : string * row -> Prop) k v d :
  P (k, v) -> Forall P d -> Forall P (dict_set k v d).
Proof.
  intros Hkv. induction 1 as [|[k0 v0] d ? ? IH]; simpl.
  - by repeat constructor.
  - case_decide; by constructor.
Qed.

Lemma dict_wf_set v d : dict_wf d -> dict_wf (dict_set (Start_Time v) v d).
Proof.
  intros [Hnd Hall]. split.
  - rewrite dict_keys_set. case_decide; [done|].
    apply NoDup_app. split_and!; [done | | apply NoDup_singleton].
    intros k Hk ->%list_elem_of_singleton. done.
  - by apply dict_set_Forall.
Qed.

Lemma dict_wf_merge entries d : dict_wf d -> dict_wf (merge_entries d entries).
Proof.
  unfold merge_entries. revert d.
  induction entries as [|e entries IH]; simpl; [done|].
  intros d Hd. apply IH. by apply dict_wf_set.
Qed.

Lemma dict_wf_merged existing data : dict_wf (merged_dict existing data).
Proof. unfold merged_dict. do 2 apply dict_wf_merge. apply dict_wf_nil. Qed.

Lemma merge_entries_cons d e entries :
  merge_entries d (e :: entries)
  = merge_entries (dict_set (Start_Time e) e d) entries.
Proof. reflexivity. Qed.

Lemma merge_entries_app d l1 l2 :
  merge_entries d (l1 ++ l2) = merge_entries (merge_entries d l1) l2.
Proof. unfold merge_entries. apply foldl_app. Qed.

Lemma merged_dict_app existing data :
  merged_dict existing data = merge_entries [] (existing ++ data).
Proof. unfold merged_dict. by rewrite merge_entries_app. Qed.

(** Last write wins: a key holds the last row written under it, or what it
    held before when nothing was written. *)
Lemma dict_get_merge k entries d :
  dict_get k (merge_entries d entries)
  = match last_entry k entries with
    | Some e => Some e
    | None => dict_get k d
    end.
Proof.
  revert d. induction entries as [|e entries IH]; intros d; [done|].
  rewrite merge_entries_cons, IH. simpl.
  destruct (last_entry k entries); [done|].
  rewrite dict_get_set. by case_decide.
Qed.

Lemma dict_keys_merge_elem k entries d :
  k ∈ dict_keys (merge_entries d entries)
  <-> k ∈ dict_keys d \/ k ∈ Start_Time <$> entries.
Proof.
  revert d. induction entries as [|e entries IH]; intros d.
  - simpl. rewrite elem_of_nil. tauto.
  - rewrite merge_entries_cons, IH, dict_keys_set_elem, fmap_cons,
      elem_of_cons. tauto.
Qed.

Lemma dict_values_merge_elem v entries d :
  v ∈ dict_values (merge_entries d entries)
  -> v ∈ dict_values d \/ v ∈ entries.
Proof.
  unfold dict_values. intros [[k v'] [-> Hin]]%list_elem_of_fmap. simpl.
  assert (Hk : k ∈ dict_keys (merge_entries d entries)).
  { apply list_elem_of_fmap. by exists (k, v'). }
  revert d Hin Hk. induction entries as [|e entries IH]; intros d Hin Hk.
  - left. apply list_elem_of_fmap. by exists (k, v').
  - rewrite merge_entries_cons in Hin, Hk.
    destruct (IH _ Hin Hk) as [Hv|Hv]; [|right; by right].
    apply list_elem_of_fmap in Hv as [[k0 v0] [-> Hv]]. simpl.
    clear -Hv. induction d as [|[k1 v1] d IHd]; simpl in Hv.
    + apply list_elem_of_singleton in Hv as [= -> ->]. right. left.
    + case_decide; subst.
      * apply elem_of_cons in Hv as [[= -> ->]|Hv]; [right; left|].
        left. simpl. right. apply list_elem_of_fmap. by exists (k0, v0).
      * apply elem_of_cons in Hv as [[= -> ->]|Hv]; [left; simpl; left|].
        destruct (IHd Hv) as [?|?]; [left; simpl; by right | by right].
Qed.

(** Two dicts with the same keys in the same order and the same bindings
    are the same. *)
Lemma dict_ext d1 d2 :
  NoDup (dict_keys d1) ->
  dict_keys d1 = dict_keys d2 ->
  (forall k, dict_get k d1 = dict_get k d2) ->
  d1 = d2.
Proof.
  revert d2. induction d1 as [|[k1 v1] d1 IH]; intros [|[k2 v2] d2];
    simpl; try done.
  intros Hnd [= <- Hkeys] Hget. apply NoDup_cons in Hnd as [Hk1 Hnd].
  pose proof (Hget k1) as H1. simpl in H1.
  rewrite !decide_True in H1 by done. injection H1 as <-.
  f_equal. apply IH; [done..|].
  intros k. destruct (decide (k = k1)) as [->|Hne].
  - transitivity (@None row); [|symmetry].
    + by apply dict_get_None.
    + apply dict_get_None. by rewrite <- Hkeys.
  - specialize (Hget k). simpl in Hget. by rewrite !decide_False in Hget.
Qed.

(** A batch whose keys are all bound already adds no key. *)
Lemma dict_keys_merge_absorbed entries d :
  (forall e, e ∈ entries -> Start_Time e ∈ dict_keys d) ->
  dict_keys (merge_entries d entries) = dict_keys d.
Proof.
  revert d. induction entries as [|e entries IH]; intros d Hsub; [done|].
  assert (Hk : dict_keys (dict_set (Start_Time e) e d) = dict_keys d).
  { apply dict_keys_set_in, Hsub. left. }
  rewrite merge_entries_cons, IH; [done|].
  intros e' He'. rewrite Hk. apply Hsub. by right.
Qed.

(** Writing the same batch again changes nothing. *)
Lemma merge_entries_again d entries :
  dict_wf d ->
  merge_entries (merge_entries d entries) entries = merge_entries d entries.
Proof.
  intros Hd. pose proof (dict_wf_merge entries d Hd) as [Hnd _].
  symmetry. apply dict_ext; [done| |].
  - symmetry. apply dict_keys_merge_absorbed. intros e He.
    apply dict_keys_merge_elem. right. by apply list_elem_of_fmap_2.
  - intros k. rewrite (dict_get_merge k entries (merge_entries d entries)).
    rewrite dict_get_merge. by destruct (last_entry k entries).
Qed.

End dict_facts.

Section dict_map_facts.
Implicit Types (d : dict) (k : string) (v : row) (entries : list row).
Implicit Types (m : gmap string row).

Lemma dict_to_map_set k v d :
  dict_to_map (dict_set k v d) = <[k:=v]> (dict_to_map d).
Proof.
  unfold dict_to_map. induction d as [|[k0 v0] d IH]; simpl; [done|].
  case_decide; subst; simpl.
  - by rewrite insert_insert_eq.
  - rewrite IH. by apply insert_insert_ne.
Qed.

Lemma dict_to_map_lookup k d : dict_to_map d !! k = dict_get k d.
Proof.
  unfold dict_to_map. induction d as [|[k0 v0] d IH]; simpl; [done|].
  case_decide; subst.
  - by rewrite lookup_insert_eq.
  - by rewrite lookup_insert_ne.
Qed.

Lemma dict_to_map_merge entries d :
  dict_to_map (merge_entries d entries)
  = insert_entries (dict_to_map d) entries.
Proof.
  revert d. induction entries as [|e entries IH]; intros d; [done|].
  rewrite merge_entries_cons, IH, dict_to_map_set. done.
Qed.

(** Writes under distinct keys commute. *)
Lemma insert_entries_Permutation l1 l2 m :
  l1 ≡ₚ l2 ->
  NoDup (Start_Time <$> l1) ->
  insert_entries m l1 = insert_entries m l2.
Proof.
  intros Hp. revert m.
  induction Hp as [|x l l' Hp IH|x y l|l l' l'' Hp1 IH1 Hp2 IH2];
    intros m Hnd; simpl.
  - done.
  - apply IH. rewrite fmap_cons in Hnd. by apply NoDup_cons in Hnd as [_ ?].
  - rewrite !fmap_cons in Hnd. apply NoDup_cons in Hnd as [Hne _].
    apply not_elem_of_cons in Hne as [Hne _].
    unfold insert_entries. simpl. f_equal. by apply insert_insert_ne.
  - rewrite IH1 by done. apply IH2. by rewrite <- Hp1.
Qed.

End dict_map_facts.

Section filter_facts.
Variable P : string -> bool.
Implicit Types (d : dict) (k : string) (v : row) (entries : list row).

Lemma dict_filter_cons k v d :
  dict_filter P ((k, v) :: d)
  = if P k then (k, v) :: dict_filter P d else dict_filter P d.
Proof.
  unfold dict_filter. rewrite filter_cons. simpl.
  destruct (P k); by case_decide.
Qed.

Lemma filter_rows_cons e entries :
  filter_rows P (e :: entries)
  = if P (Start_Time e) then e :: filter_rows P entries
    else filter_rows P entries.
Proof.
  unfold filter_rows. rewrite filter_cons.
  destruct (P (Start_Time e)); by case_decide.
Qed.

Lemma dict_filter_set k v d :
  dict_filter P (dict_set k v d)
  = if P k then dict_set k v (dict_filter P d) else dict_filter P d.
Proof.
  induction d as [|[k0 v0] d IH]; simpl.
  - rewrite dict_filter_cons. by destruct (P k).
  - case_decide; subst; rewrite !dict_filter_cons.
    + destruct (P k0); simpl; [|done]. by rewrite decide_True.
    + rewrite IH. destruct (P k), (P k0); simpl; try done.
      by rewrite decide_False.
Qed.

Lemma dict_filter_merge entries d :
  dict_filter P (merge_entries d entries)
  = merge_entries (dict_filter P d) (filter_rows P entries).
Proof.
  revert d. induction entries as [|e entries IH]; intros d; [done|].
  rewrite merge_entries_cons, IH, dict_filter_set, filter_rows_cons.
  by destruct (P (Start_Time e)).
Qed.

Lemma dict_values_filter d :
  Forall (fun kv => kv.1 = Start_Time kv.2) d ->
  dict_values (dict_filter P d) = filter_rows P (dict_values d).
Proof.
  unfold dict_values. induction 1 as [|[k v] d Hk _ IH]; [done|].
  simpl in Hk. subst k.
  rewrite dict_filter_cons, fmap_cons, filter_rows_cons. simpl.
  destruct (P (Start_Time v)); [rewrite fmap_cons; simpl|]; by rewrite IH.
Qed.

Lemma dict_filter_idem d : dict_filter P (dict_filter P d) = dict_filter P d.
Proof.
  induction d as [|[k v] d IH]; [done|].
  rewrite dict_filter_cons. destruct (P k) eqn:Hk; [|done].
  by rewrite dict_filter_cons, Hk, IH.
Qed.

End filter_facts.

(** Rebuilding a [dict] from its own rows gives it back. *)
Lemma merge_entries_values (d acc : dict) :
  dict_wf (acc ++ d) -> merge_entries acc (dict_values d) = acc ++ d.
Proof.
  revert acc. induction d as [|[k v] d IH]; intros acc [Hnd Hall].
  - by rewrite app_nil_r.
  - change (dict_values ((k, v) :: d)) with (v :: dict_values d).
    rewrite merge_entries_cons.
    apply Forall_app in Hall as Hall'. destruct Hall' as [_ Hkv].
    apply Forall_cons in Hkv as [Hk _]. simpl in Hk. subst k.
    assert (Hfresh : Start_Time v ∉ dict_keys acc).
    { unfold dict_keys in *. rewrite fmap_app in Hnd.
      apply NoDup_app in Hnd as (_ & Hdisj & _).
      intros Hin. apply (Hdisj _ Hin). left. }
    rewrite dict_set_fresh by done.
    rewrite IH; rewrite <- app_assoc; [done|]. by split.
Qed.

Lemma merge_entries_nil_values (d : dict) :
  dict_wf d -> merge_entries [] (dict_values d) = d.
Proof. intros Hd. by rewrite merge_entries_values. Qed.

(** Merging and pruning once more, with the same batch and the same test on
    the keys, gives the same rows. *)
Lemma prune_merge_again (P : string -> bool) (existing data : list row) :
  let rows := filter_rows P (dict_values (merged_dict existing data)) in
  filter_rows P (dict_values (merged_dict rows data)) = rows.
Proof.
  intros rows.
  pose proof (dict_wf_merged existing data) as [_ Hall].
  pose proof (dict_wf_merged rows data) as [_ Hall'].
  set (X := merge_entries [] (filter_rows P existing)).
  assert (HX : dict_wf X) by apply dict_wf_merge, dict_wf_nil.
  assert (HF : dict_filter P (merged_dict existing data)
               = merge_entries X (filter_rows P data)).
  { unfold merged_dict. by rewrite !dict_filter_merge. }
  assert (Hrows : rows = dict_values (merge_entries X (filter_rows P data))).
  { unfold rows. by rewrite <- dict_values_filter, HF. }
  rewrite <- (dict_values_filter P _ Hall').
  unfold merged_dict at 1. rewrite dict_filter_merge.
  rewrite Hrows at 1. rewrite merge_entries_nil_values
    by apply dict_wf_merge, HX.
  rewrite <- HF at 1. rewrite dict_filter_idem, HF.
  by rewrite merge_entries_again.
Qed.

(** ** The retention filter *)

Lemma not_expired_parses (cutoff : Z) (e : row) :
  parses e -> not_expired cutoff e = Ok (fresh cutoff (Start_Time e)).
Proof.
  unfold parses, not_expired, fresh. by intros [t ->].
Qed.

Lemma not_expired_None (cutoff : Z) (e : row) :
  ¬ parses e -> not_expired cutoff e = Raise TypeError.
Proof.
  unfold parses, not_expired. destruct (parse_datetime _); [|done].
  intros []. by eexists.
Qed.

Lemma filter_entries_Ok (cutoff : Z) (entries : list row) :
  Forall parses entries ->
  filter_entries cutoff entries = Ok (filter_rows (fresh cutoff) entries).
Proof.
  induction 1 as [|e entries He _ IH]; [done|].
  simpl. rewrite (not_expired_parses _ _ He), IH, filter_rows_cons. simpl.
  by destruct (fresh cutoff (Start_Time e)).
Qed.

Lemma filter_entries_Raise (cutoff : Z) (entries : list row) :
  ¬ Forall parses entries -> filter_entries cutoff entries = Raise TypeError.
Proof.
  induction entries as [|e entries IH]; intros Hno.
  - destruct Hno. constructor.
  - simpl. destruct (decide (parses e)) as [He|He].
    + rewrite (not_expired_parses _ _ He). simpl.
      rewrite IH; [done|]. intros Hall. apply Hno. by constructor.
    + by rewrite (not_expired_None _ _ He).
Qed.

Lemma filter_entries_inv (cutoff : Z) (entries rows : list row) :
  filter_entries cutoff entries = Ok rows ->
  Forall parses entries /\ rows = filter_rows (fresh cutoff) entries.
Proof.
  destruct (decide (Forall parses entries)) as [Hall|Hno].
  - rewrite filter_entries_Ok by done. by intros [= <-].
  - by rewrite filter_entries_Raise.
Qed.

Lemma fresh_spec (cutoff : Z) (k : string) :
  fresh cutoff k <-> exists t, parse_datetime k = Some t /\ cutoff <= t.
Proof.
  unfold fresh. destruct (parse_datetime k) as [t|].
  - rewrite Is_true_true, Z.leb_le. split; [by exists t | by intros (? & [= <-] & ?)].
  - split; [done | by intros (? & ? & _)].
Qed.

Lemma elem_of_filter_rows (P : string -> bool) (e : row) (entries : list row) :
  e ∈ filter_rows P entries <-> P (Start_Time e) /\ e ∈ entries.
Proof. unfold filter_rows. by rewrite list_elem_of_filter. Qed.

(** A representable cutoff is the difference the code computes. *)
Lemma retention_cutoff_Ok (current_time retain_days : Z) :
  MIN_DATETIME <= current_time <= MAX_DATETIME ->
  0 <= retain_days ->
  MIN_DATETIME <= current_time - retain_days * 86400000000 ->
  retention_cutoff current_time retain_days
  = Ok (current_time - retain_days * 86400000000).
Proof.
  intros Hnow Hrd Hmin.
  assert (Hb : MIN_DATETIME = -62135596800000000
               /\ MAX_DATETIME = 253402300799999999) by (by vm_compute).
  destruct Hb as [Hlo Hhi].
  unfold retention_cutoff, timedelta_days, datetime_sub.
  assert (H1 : (-999999999 <=? retain_days) && (retain_days <=? 999999999)
               = true).
  { apply andb_true_iff. split; apply Z.leb_le; lia. }
  rewrite H1. simpl.
  assert (H2 : (MIN_DATETIME <=? current_time - retain_days * 86400 * 1000000)
               && (current_time - retain_days * 86400 * 1000000
                   <=? MAX_DATETIME) = true).
  { apply andb_true_iff. split; apply Z.leb_le; lia. }
  rewrite H2. f_equal. lia.
Qed.

Lemma retention_cutoff_inv (current_time retain_days cutoff : Z) :
  retention_cutoff current_time retain_days = Ok cutoff ->
  cutoff = current_time - retain_days * 86400000000.
Proof.
  unfold retention_cutoff, timedelta_days, datetime_sub.
  destruct (_ && _); simpl; [|done].
  destruct (_ && _); [|done]. intros [= <-]. lia.
Qed.

(** ** [save_to_json] *)

Section save_to_json_facts.
Implicit Types (data existing rows : list row) (output_file : file_state).
Implicit Types (retain_days current_time cutoff : Z).

Lemma merged_values_sub existing data e :
  e ∈ dict_values (merged_dict existing data) -> e ∈ existing ++ data.
Proof.
  unfold merged_dict. intros [He|He]%dict_values_merge_elem.
  - apply dict_values_merge_elem in He as [He|He].
    + by apply elem_of_nil in He.
    + apply elem_of_app. by left.
  - apply elem_of_app. by right.
Qed.

Lemma merged_values_parse existing data :
  Forall parses (existing ++ data) ->
  Forall parses (dict_values (merged_dict existing data)).
Proof.
  rewrite !Forall_forall. intros Hall e He.
  by apply Hall, merged_values_sub.
Qed.

(** Every key of the inputs is bound in the merged [dict], to a row with
    that ['Start Time']. *)
Lemma merged_key_bound existing data e :
  e ∈ existing ++ data ->
  exists v, v ∈ dict_values (merged_dict existing data)
            /\ Start_Time v = Start_Time e.
Proof.
  intros He. rewrite merged_dict_app.
  assert (Hk : Start_Time e ∈ dict_keys (merge_entries [] (existing ++ data))).
  { apply dict_keys_merge_elem. right. by apply list_elem_of_fmap_2. }
  apply list_elem_of_fmap in Hk as [[k v] [Hk Hin]]. simpl in Hk. subst k.
  exists v. split.
  - apply list_elem_of_fmap. by exists (Start_Time e, v).
  - pose proof (dict_wf_merge (existing ++ data) [] dict_wf_nil) as [_ Hall].
    rewrite Forall_forall in Hall. by specialize (Hall _ Hin).
Qed.

Lemma merged_values_parse_inv existing data :
  Forall parses (dict_values (merged_dict existing data)) ->
  Forall parses (existing ++ data).
Proof.
  rewrite !Forall_forall. intros Hall e He.
  destruct (merged_key_bound _ _ _ He) as (v & Hv & Hkey).
  specialize (Hall _ Hv). unfold parses in *. by rewrite <- Hkey.
Qed.

Lemma filtered_data_Ok existing data retain_days current_time cutoff :
  retention_cutoff current_time retain_days = Ok cutoff ->
  Forall parses (existing ++ data) ->
  filtered_data existing data retain_days current_time
  = Ok (filter_rows (fresh cutoff) (dict_values (merged_dict existing data))).
Proof.
  intros Hc Hall. unfold filtered_data. rewrite Hc. simpl.
  by apply filter_entries_Ok, merged_values_parse.
Qed.

Lemma filtered_data_inv existing data retain_days current_time rows :
  filtered_data existing data retain_days current_time = Ok rows ->
  exists cutoff,
    retention_cutoff current_time retain_days = Ok cutoff
    /\ Forall parses (existing ++ data)
    /\ rows = filter_rows (fresh cutoff)
                (dict_values (merged_dict existing data)).
Proof.
  unfold filtered_data.
  destruct (retention_cutoff current_time retain_days) as [cutoff|]; [|done].
  simpl. intros [Hall ->]%filter_entries_inv. exists cutoff.
  split_and!; [done| |done]. by apply merged_values_parse_inv.
Qed.

Lemma save_to_json_Ok data output_file retain_days current_time cutoff :
  retention_cutoff current_time retain_days = Ok cutoff ->
  Forall parses (load_existing output_file ++ data) ->
  save_to_json data output_file retain_days current_time
  = (Ok (), FileJSON (filter_rows (fresh cutoff)
       (dict_values (merged_dict (load_existing output_file) data)))).
Proof.
  intros Hc Hall. unfold save_to_json.
  by rewrite (filtered_data_Ok _ _ _ _ _ Hc Hall).
Qed.

Lemma save_to_json_inv data output_file retain_days current_time rows :
  save_to_json data output_file retain_days current_time
  = (Ok (), FileJSON rows) ->
  exists cutoff,
    retention_cutoff current_time retain_days = Ok cutoff
    /\ Forall parses (load_existing output_file ++ data)
    /\ rows = filter_rows (fresh cutoff)
                (dict_values (merged_dict (load_existing output_file) data)).
Proof.
  unfold save_to_json.
  destruct (filtered_data _ _ _ _) as [rows'|] eqn:Hf; [|done].
  intros [= <-]. by apply filtered_data_inv.
Qed.

(** A raise leaves the file as it was. *)
Lemma save_to_json_Raise data output_file retain_days current_time e f :
  save_to_json data output_file retain_days current_time = (Raise e, f) ->
  f = output_file.
Proof.
  unfold save_to_json. destruct (filtered_data _ _ _ _); [done|].
  by intros [= _ <-].
Qed.

End save_to_json_facts.

(** ** The written rows and the insertion order *)

Lemma dict_values_keys (d : dict) :
  Forall (fun kv => kv.1 = Start_Time kv.2) d ->
  Start_Time <$> dict_values d = dict_keys d.
Proof.
  unfold dict_values, dict_keys. induction 1 as [|[k v] d Hk _ IH]; [done|].
  rewrite !fmap_cons. simpl in Hk. cbn [snd fst]. by rewrite IH, Hk.
Qed.

Lemma filter_rows_keys (P : string -> bool) (entries : list row) :
  Start_Time <$> filter_rows P entries
  = filter (fun k => P k) (Start_Time <$> entries).
Proof.
  induction entries as [|e entries IH]; [done|].
  rewrite filter_rows_cons, fmap_cons, filter_cons.
  case_decide as Hd; simpl in Hd; destruct (P (Start_Time e)); try done.
  by rewrite fmap_cons, IH.
Qed.

Lemma dict_keys_merge_first (entries : list row) (d : dict) :
  dict_keys (merge_entries d entries)
  = first_occurrences (dict_keys d) (Start_Time <$> entries).
Proof.
  revert d. induction entries as [|e entries IH]; intros d; [done|].
  rewrite merge_entries_cons, IH, dict_keys_set. done.
Qed.

(** The insertion order of the merged [dict]: the keys of the snapshot and
    then of the batch, each where it first occurs. *)
Lemma dict_keys_merged (existing data : list row) :
  dict_keys (merged_dict existing data)
  = first_occurrences [] (Start_Time <$> existing ++ data).
Proof. by rewrite merged_dict_app, dict_keys_merge_first. Qed.

Lemma filter_rows_sorted (P : string -> bool) (entries : list row) :
  sorted_by_timestamp entries -> sorted_by_timestamp (filter_rows P entries).
Proof.
  unfold sorted_by_timestamp.
  induction 1 as [|e entries _ IH Hall]; [constructor|].
  rewrite filter_rows_cons. destruct (P (Start_Time e)); [|done].
  constructor; [done|]. rewrite Forall_forall in *.
  intros x [_ Hx]%elem_of_filter_rows. by apply Hall.
Qed.

Lemma written_keys (data : list row) (output_file : file_state)
    (retain_days current_time : Z) (rows : list row) :
  save_to_json data output_file retain_days current_time
  = (Ok (), FileJSON rows) ->
  exists cutoff,
    retention_cutoff current_time retain_days = Ok cutoff
    /\ Start_Time <$> rows
       = filter (fun k => fresh cutoff k)
           (dict_keys (merged_dict (load_existing output_file) data)).
Proof.
  intros (cutoff & Hc & _ & ->)%save_to_json_inv. exists cutoff.
  split; [done|]. rewrite filter_rows_keys. f_equal.
  apply dict_values_keys, dict_wf_merged.
Qed.

Lemma last_entry_app (k : string) (l1 l2 : list row) :
  last_entry k (l1 ++ l2)
  = match last_entry k l2 with
    | Some e => Some e
    | None => last_entry k l1
    end.
Proof.
  induction l1 as [|e l1 IH]; simpl.
  - by destruct (last_entry k l2).
  - rewrite IH. by destruct (last_entry k l2).
Qed.

Lemma last_entry_None (k : string) (entries : list row) :
  Forall (fun e => Start_Time e ≠ k) entries -> last_entry k entries = None.
Proof.
  induction 1 as [|e entries He _ IH]; [done|].
  simpl. rewrite IH. by rewrite decide_False.
Qed.

(** ** The claims on the merge store *)

(** C2. Merging is last write wins by timestamp key: whatever the snapshot
    holds, the merged [dict] binds a key to the last incoming row that
    carries it, that is the row after which the batch has no other row with
    that key. *)
Theorem merge_last_write_wins (existing before after : list row) (e : row) :
  Forall (fun e' => Start_Time e' ≠ Start_Time e) after ->
  dict_get (Start_Time e) (merged_dict existing (before ++ e :: after))
  = Some e.
Proof.
  intros Hafter. unfold merged_dict.
  rewrite dict_get_merge, last_entry_app. simpl.
  rewrite (last_entry_None _ _ Hafter). by rewrite decide_True.
Qed.

(** The scenario of the specification: the snapshot holds total 5 at [T1],
    the batch brings total 7 at [T1]. *)
Lemma merge_last_write_wins_witness :
  dict_get T1 (merged_dict [sample_row T1 5] ([] ++ sample_row T1 7 :: []))
  = Some (sample_row T1 7).
Proof.
  apply (merge_last_write_wins [sample_row T1 5] [] [] (sample_row T1 7)).
  constructor.
Defined.

(** C8, as stated, fails: a batch with two rows at one key merges to a
    different map when the two are exchanged. *)
Lemma merge_permutation_counterexample :
  [sample_row T1 5; sample_row T1 7] ≡ₚ [sample_row T1 7; sample_row T1 5]
  /\ dict_to_map (merged_dict [] [sample_row T1 5; sample_row T1 7])
     ≠ dict_to_map (merged_dict [] [sample_row T1 7; sample_row T1 5]).
Proof.
  split; [apply perm_swap|].
  intros Heq. apply (f_equal (fun m => Total <$> m !! T1)) in Heq.
  rewrite !dict_to_map_lookup in Heq. vm_compute in Heq. discriminate.
Qed.

(** C8, amended. For a batch whose rows have pairwise distinct keys, every
    permutation of the batch merges to the same keyed map. *)
Theorem merge_permutation (existing data data' : list row) :
  NoDup (Start_Time <$> data) ->
  data ≡ₚ data' ->
  dict_to_map (merged_dict existing data)
  = dict_to_map (merged_dict existing data').
Proof.
  intros Hnd Hp. unfold merged_dict. rewrite !dict_to_map_merge.
  by apply insert_entries_Permutation.
Qed.

Lemma merge_permutation_witness :
  dict_to_map (merged_dict [sample_row T1 5]
                 [sample_row T1 7; sample_row T2 3])
  = dict_to_map (merged_dict [sample_row T1 5]
                   [sample_row T2 3; sample_row T1 7]).
Proof.
  apply merge_permutation.
  - compute_done.
  - apply perm_swap.
Defined.

(** C1, as stated, fails: a retention window that reaches back before the
    year 1 has no cutoff a [datetime] can hold; the subtraction raises and
    nothing is written, so the row of 2024-01-02 is not kept. *)
Lemma retention_counterexample :
  0 <= 1000000
  /\ ¬ prunes_exactly [sample_row T2 3] FileMissing 1000000 sample_now.
Proof.
  split; [done|]. intros (rows & Hsave & _).
  vm_compute in Hsave. discriminate.
Qed.

(** C1, amended. For every snapshot and incoming list whose ['Start Time']
    strings all parse, every clock reading and every [retain_days >= 0]
    whose cutoff [current_time - retain_days] days is a [datetime],
    [save_to_json] completes and writes exactly the merged rows whose
    timestamp is not before the cutoff: no row with an earlier timestamp is
    written and every merged row at or after the cutoff is. *)
Theorem save_to_json_retention (data : list row) (output_file : file_state)
    (retain_days current_time : Z) :
  0 <= retain_days ->
  MIN_DATETIME <= current_time <= MAX_DATETIME ->
  MIN_DATETIME <= current_time - retain_days * 86400000000 ->
  Forall parses (load_existing output_file ++ data) ->
  prunes_exactly data output_file retain_days current_time.
Proof.
  intros Hrd Hnow Hmin Hall.
  pose proof (retention_cutoff_Ok _ _ Hnow Hrd Hmin) as Hc.
  eexists. split; [by apply save_to_json_Ok|].
  intros entry. rewrite elem_of_filter_rows, fresh_spec. tauto.
Qed.

Lemma save_to_json_retention_witness :
  prunes_exactly [sample_row T1 12; sample_row T2 3]
    (FileJSON [sample_row T1 10]) 1 sample_now.
Proof.
  apply save_to_json_retention.
  - lia.
  - compute_done.
  - compute_done.
  - compute_done.
Defined.

(** C3. Merge and prune is idempotent: with the clock reading fixed, a
    second run of [save_to_json] on the same batch ends with the outcome and
    the file of the first. *)
Theorem save_to_json_idempotent (data : list row) (output_file : file_state)
    (retain_days current_time : Z) :
  save_to_json data
    (save_to_json data output_file retain_days current_time).2
    retain_days current_time
  = save_to_json data output_file retain_days current_time.
Proof.
  unfold save_to_json at 2 3.
  destruct (filtered_data _ _ _ _) as [rows|e] eqn:Hf; simpl.
  - apply filtered_data_inv in Hf as (cutoff & Hc & Hall & Hrows).
    assert (Hall' : Forall parses (rows ++ data)).
    { apply Forall_app in Hall as [_ Hdata]. apply Forall_app. split; [|done].
      rewrite Forall_forall. intros x Hx. rewrite Hrows in Hx.
      apply elem_of_filter_rows in Hx as [Hx _].
      apply fresh_spec in Hx as (t & Ht & _). unfold parses. by rewrite Ht. }
    rewrite (save_to_json_Ok _ (FileJSON rows) _ _ _ Hc Hall'). simpl.
    do 2 f_equal. rewrite Hrows at 2. rewrite Hrows.
    apply prune_merge_again.
  - unfold save_to_json. by rewrite Hf.
Qed.

(** C4, as stated, fails: a batch in descending order is written in
    descending order. *)
Lemma save_to_json_sorted_counterexample :
  save_to_json [sample_row T2 3; sample_row T1 12] FileMissing 30 sample_now
  = (Ok (), FileJSON [sample_row T2 3; sample_row T1 12])
  /\ ¬ sorted_by_timestamp [sample_row T2 3; sample_row T1 12].
Proof.
  split; [by vm_compute|].
  intros [Hle _]%StronglySorted_cons.
  apply Forall_cons in Hle as [Hle _]. vm_compute in Hle. by apply Hle.
Qed.

(** C4, amended. The rows [save_to_json] writes are in the insertion order
    of the merged [dict]: their keys are the surviving keys of the snapshot
    followed by the batch, each where it first occurs. The written list is
    sorted ascending by timestamp whenever that order of the merged rows
    is. *)
Theorem save_to_json_insertion_order (data : list row)
    (output_file : file_state) (retain_days current_time : Z)
    (rows : list row) :
  save_to_json data output_file retain_days current_time
  = (Ok (), FileJSON rows) ->
  (exists cutoff,
     retention_cutoff current_time retain_days = Ok cutoff
     /\ Start_Time <$> rows
        = filter (fun k => fresh cutoff k)
            (first_occurrences []
               (Start_Time <$> load_existing output_file ++ data)))
  /\ (sorted_by_timestamp
        (dict_values (merged_dict (load_existing output_file) data)) ->
      sorted_by_timestamp rows).
Proof.
  intros Hsave. split.
  - destruct (written_keys _ _ _ _ _ Hsave) as (cutoff & Hc & Hkeys).
    exists cutoff. by rewrite <- dict_keys_merged.
  - apply save_to_json_inv in Hsave as (cutoff & _ & _ & ->).
    apply filter_rows_sorted.
Qed.

Lemma save_to_json_insertion_order_witness :
  (exists cutoff,
     retention_cutoff sample_now 30 = Ok cutoff
     /\ Start_Time <$> [sample_row T1 12; sample_row T2 3]
        = filter (fun k => fresh cutoff k)
            (first_occurrences []
               (Start_Time <$> load_existing (FileJSON [sample_row T1 10])
                               ++ [sample_row T1 12; sample_row T2 3])))
  /\ (sorted_by_timestamp
        (dict_values (merged_dict (load_existing (FileJSON [sample_row T1 10]))
                        [sample_row T1 12; sample_row T2 3])) ->
      sorted_by_timestamp [sample_row T1 12; sample_row T2 3]).
Proof.
  apply (save_to_json_insertion_order [sample_row T1 12; sample_row T2 3]
           (FileJSON [sample_row T1 10]) 30 sample_now).
  vm_compute. reflexivity.
Defined.

(** C5. An entry of the snapshot whose ['Start Time'] does not parse is not
    dropped: [parse_datetime] answers [None], the comparison with the cutoff
    raises [TypeError], and the run ends there with the file untouched and
    none of the other rows written. *)
Theorem save_to_json_unparseable (data : list row) (output_file : file_state)
    (retain_days current_time cutoff : Z) (entry : row) :
  retention_cutoff current_time retain_days = Ok cutoff ->
  entry ∈ load_existing output_file ->
  parse_datetime (Start_Time entry) = None ->
  save_to_json data output_file retain_days current_time
  = (Raise TypeError, output_file).
Proof.
  intros Hc Hin Hnone. unfold save_to_json, filtered_data. rewrite Hc. simpl.
  rewrite filter_entries_Raise; [done|].
  intros Hall%merged_values_parse_inv. rewrite Forall_forall in Hall.
  assert (He : parses entry) by (apply Hall, elem_of_app; by left).
  unfold parses in He. rewrite Hnone in He. by destruct He.
Qed.

Lemma save_to_json_unparseable_witness :
  save_to_json [sample_row T1 12; sample_row T2 3]
    (FileJSON [sample_row "not a date" 1; sample_row T1 10]) 30 sample_now
  = (Raise TypeError,
     FileJSON [sample_row "not a date" 1; sample_row T1 10]).
Proof.
  apply (save_to_json_unparseable _ _ 30 sample_now
           (sample_now - 30 * 86400000000) (sample_row "not a date" 1)).
  - reflexivity.
  - left.
  - reflexivity.
Defined.




(** C10. Whatever the snapshot holds, duplicates included, the list
    [save_to_json] writes has at most one entry for a ['Start Time']. *)
Theorem save_to_json_unique_keys (data : list row) (output_file : file_state)
    (retain_days current_time : Z) (rows : list row) :
  save_to_json data output_file retain_days current_time
  = (Ok (), FileJSON rows) ->
  NoDup (Start_Time <$> rows).
Proof.
  intros (cutoff & _ & ->)%written_keys.
  apply NoDup_filter, dict_wf_merged.
Qed.

Lemma save_to_json_unique_keys_witness :
  NoDup (Start_Time <$> [sample_row T1 12; sample_row T2 3]).
Proof.
  apply (save_to_json_unique_keys [sample_row T1 12; sample_row T2 3]
           (FileJSON [sample_row T1 10; sample_row T1 11]) 30 sample_now).
  vm_compute. reflexivity.
Defined.

(** ** The calendar *)

Section calendar_facts.
Import Datetime.

Lemma all_from_spec (f : Z -> bool) (n : nat) (lo x : Z) :
  all_from f lo n = true -> lo <= x < lo + Z.of_nat n -> f x = true.
Proof.
  revert lo. induction n as [|n IH]; intros lo; simpl; [lia|].
  destruct (f lo) eqn:Hlo; [|done]. intros Hall Hx.
  destruct (decide (x = lo)) as [->|Hne]; [done|].
  apply (IH (lo + 1)); [done|lia].
Qed.

Lemma cycle_ok_all (n : Z) : 0 <= n < _DI400Y -> cycle_ok n = true.
Proof.
  intros Hn. apply (all_from_spec _ (Z.to_nat _DI400Y) 0).
  - vm_compute. reflexivity.
  - unfold _DI400Y in *. lia.
Qed.

Lemma _is_leap_cycle (q year : Z) : _is_leap (q * 400 + year) = _is_leap year.
Proof.
  unfold _is_leap.
  replace ((q * 400 + year) mod 4) with (year mod 4)
    by (Z.div_mod_to_equations; lia).
  replace ((q * 400 + year) mod 100) with (year mod 100)
    by (Z.div_mod_to_equations; lia).
  replace ((q * 400 + year) mod 400) with (year mod 400)
    by (Z.div_mod_to_equations; lia).
  done.
Qed.

Lemma _days_before_year_cycle (q year : Z) :
  _days_before_year (q * 400 + year) = q * _DI400Y + _days_before_year year.
Proof.
  unfold _days_before_year, _DI400Y. cbv zeta.
  Z.div_mod_to_equations. lia.
Qed.

Lemma _days_in_month_cycle (q year month : Z) :
  _days_in_month (q * 400 + year) month = _days_in_month year month.
Proof. unfold _days_in_month. by rewrite _is_leap_cycle. Qed.

Lemma _ymd2ord_cycle (q year month day : Z) :
  _ymd2ord (q * 400 + year) month day
  = q * _DI400Y + _ymd2ord year month day.
Proof.
  unfold _ymd2ord, _days_before_month.
  rewrite _days_before_year_cycle, _is_leap_cycle. lia.
Qed.

(** [_ord2ymd] answers a date of the calendar whose ordinal is the one it
    was given. *)
Lemma _ord2ymd_spec (n year month day : Z) :
  1 <= n <= _ymd2ord MAXYEAR 12 31 ->
  _ord2ymd n = (year, month, day) ->
  MINYEAR <= year <= MAXYEAR
  /\ 1 <= month <= 12
  /\ 1 <= day <= _days_in_month year month
  /\ _ymd2ord year month day = n.
Proof.
  intros Hn. unfold _ord2ymd. cbv zeta.
  assert (Hmax : _ymd2ord MAXYEAR 12 31 = 3652059) by (by vm_compute).
  rewrite Hmax in Hn.
  pose proof (cycle_ok_all ((n - 1) mod _DI400Y)) as Hok.
  unfold _DI400Y in *.
  assert (Hr : 0 <= (n - 1) mod 146097 < 146097) by (by apply Z.mod_pos_bound).
  specialize (Hok Hr). unfold cycle_ok in Hok.
  destruct (_ord2ymd_cycle ((n - 1) mod 146097)) as [[y m] d].
  intros [= <- <- <-].
  rewrite !andb_true_iff, orb_true_iff, !Z.leb_le, Z.eqb_eq in Hok.
  destruct Hok as (((((((Hy1 & Hy2) & Hm1) & Hm2) & Hd1) & Hd2) & Hord) & Hlast).
  rewrite _days_in_month_cycle, _ymd2ord_cycle, Hord.
  unfold MINYEAR, MAXYEAR, _DI400Y.
  assert (Hq : 0 <= (n - 1) / 146097 <= 24) by (Z.div_mod_to_equations; lia).
  split_and!; try lia.
  - destruct Hlast as [?|?]; [lia|]. Z.div_mod_to_equations; lia.
  - Z.div_mod_to_equations; lia.
Qed.

End calendar_facts.

(** ** Formatting and parsing *)

Section format_facts.
Import Datetime.

(** A property of the integers from [lo] holds of each when it holds of the
    first [n] by enumeration. *)
Lemma Z_range_ind (P : Z -> Prop) (lo : Z) (n : nat) :
  (forall k : nat, (k < n)%nat -> P (lo + Z.of_nat k)) ->
  forall x, lo <= x < lo + Z.of_nat n -> P x.
Proof.
  intros H x Hx. replace x with (lo + Z.of_nat (Z.to_nat (x - lo))) by lia.
  apply H. lia.
Qed.

Tactic Notation "enumerate" integer(n) :=
  let k := fresh "k" in
  let Hk := fresh "Hk" in
  intros k Hk; do n (destruct k as [|k]; [reflexivity|]); lia.

Lemma digit_char_digit (x : Z) :
  0 <= x < 10 ->
  is_digit (digit_char x) = true /\ digit_val (digit_char x) = x.
Proof.
  intros H.
  apply (Z_range_ind
           (fun x => is_digit (digit_char x) = true
                     /\ digit_val (digit_char x) = x) 0 10); [|lia].
  intros k Hk; do 10 (destruct k as [|k]; [by vm_compute|]); lia.
Qed.

Lemma re_Y_pad4 (year : Z) (r : string) :
  0 <= year <= 9999 -> re_Y (pad4 year ++ r) = Some (year, r).
Proof.
  intros Hy. unfold pad4, pad2. simpl. unfold re_Y.
  destruct (digit_char_digit (year / 1000)) as (-> & ->);
    [Z.div_mod_to_equations; lia|].
  destruct (digit_char_digit (year / 100 mod 10)) as (-> & ->);
    [Z.div_mod_to_equations; lia|].
  destruct (digit_char_digit (year mod 100 / 10)) as (-> & ->);
    [Z.div_mod_to_equations; lia|].
  destruct (digit_char_digit (year mod 100 mod 10)) as (-> & ->);
    [Z.div_mod_to_equations; lia|].
  simpl. do 2 f_equal. Z.div_mod_to_equations; lia.
Qed.

Lemma re_m_pad2 (month : Z) (r : string) :
  1 <= month <= 12 -> re_m (pad2 month ++ r) = Some (month, r).
Proof.
  intros H.
  apply (Z_range_ind (fun x => re_m (pad2 x ++ r) = Some (x, r)) 1 12);
    [enumerate 12 | lia].
Qed.

Lemma re_d_pad2 (day : Z) (r : string) :
  1 <= day <= 31 -> re_d (pad2 day ++ r) = Some (day, r).
Proof.
  intros H.
  apply (Z_range_ind (fun x => re_d (pad2 x ++ r) = Some (x, r)) 1 31);
    [enumerate 31 | lia].
Qed.

Lemma re_H_pad2 (hour : Z) (r : string) :
  0 <= hour <= 23 -> re_H (pad2 hour ++ r) = Some (hour, r).
Proof.
  intros H.
  apply (Z_range_ind (fun x => re_H (pad2 x ++ r) = Some (x, r)) 0 24);
    [enumerate 24 | lia].
Qed.

Lemma re_M_pad2 (minute : Z) (r : string) :
  0 <= minute <= 59 -> re_M (pad2 minute ++ r) = Some (minute, r).
Proof.
  intros H.
  apply (Z_range_ind (fun x => re_M (pad2 x ++ r) = Some (x, r)) 0 60);
    [enumerate 60 | lia].
Qed.

Lemma re_S_pad2 (second : Z) (r : string) :
  0 <= second <= 59 -> re_S (pad2 second ++ r) = Some (second, r).
Proof.
  intros H.
  apply (Z_range_ind (fun x => re_S (pad2 x ++ r) = Some (x, r)) 0 60);
    [enumerate 60 | lia].
Qed.

(** The blank of the format, before the two digits of the hour. *)
Lemma re_spaces_pad2 (hour : Z) (r : string) :
  0 <= hour <= 23 ->
  re_spaces (String " " (pad2 hour ++ r)) = Some (pad2 hour ++ r)%string.
Proof.
  intros H.
  apply (Z_range_ind
           (fun x => re_spaces (String " " (pad2 x ++ r))
                     = Some (pad2 x ++ r)%string) 0 24);
    [enumerate 24 | lia].
Qed.

End format_facts.

(** ** The round trip of a timestamp *)

Section round_trip_facts.
Import Datetime.

Lemma bind_Some {A B : Type} (x : A) (f : A -> option B) : Some x ≫= f = f x.
Proof. reflexivity. Qed.

Lemma lit_cons (c : ascii) (r : string) : lit c (String c "" ++ r) = Some r.
Proof. simpl. unfold is_char. by rewrite Z.eqb_refl. Qed.

Lemma match_format_formatted (year month day hour minute second : Z) :
  0 <= year <= 9999 -> 1 <= month <= 12 -> 1 <= day <= 31 ->
  0 <= hour <= 23 -> 0 <= minute <= 59 -> 0 <= second <= 59 ->
  match_format
    (pad4 year ++ "-" ++ pad2 month ++ "-" ++ pad2 day ++ " "
     ++ pad2 hour ++ ":" ++ pad2 minute ++ ":" ++ pad2 second)%string
  = Some (year, month, day, hour, minute, second).
Proof.
  intros Hy Hm Hd HH HM HS. unfold match_format.
  rewrite re_Y_pad4, bind_Some by done. cbv beta iota.
  rewrite lit_cons, bind_Some.
  rewrite re_m_pad2, bind_Some by done. cbv beta iota.
  rewrite lit_cons, bind_Some.
  rewrite re_d_pad2, bind_Some by done. cbv beta iota.
  change (" " ++ ?r)%string with (String " " r).
  rewrite re_spaces_pad2, bind_Some by done.
  rewrite re_H_pad2, bind_Some by done. cbv beta iota.
  rewrite lit_cons, bind_Some.
  rewrite re_M_pad2, bind_Some by done. cbv beta iota.
  rewrite lit_cons, bind_Some.
  change (pad2 second) with (pad2 second ++ "")%string.
  rewrite re_S_pad2, bind_Some by done. done.
Qed.

(** The text of a second in range parses back to that second. *)
Lemma strptime_strftime (s : Z) :
  seconds_in_range s = true -> strptime (strftime s) = Some s.
Proof.
  unfold seconds_in_range. rewrite andb_true_iff, !Z.leb_le.
  assert (Hb : MIN_SECONDS = -62135596800 /\ MAX_SECONDS = 253402300799
               /\ _ymd2ord MAXYEAR 12 31 = 3652059) by (by vm_compute).
  destruct Hb as (-> & -> & Hmax). intros Hs.
  unfold strftime. cbv zeta.
  destruct (_ord2ymd (s / 86400 + EPOCH_ORDINAL)) as [[year month] day] eqn:Hymd.
  apply _ord2ymd_spec in Hymd as (Hy & Hm & Hd & Hord);
    [|rewrite Hmax; unfold EPOCH_ORDINAL; Z.div_mod_to_equations; lia].
  assert (Hday : day <= 31).
  { destruct Hd as [_ Hd]. etrans; [exact Hd|].
    unfold _days_in_month. destruct (_ && _); [lia|].
    clear -Hm. unfold table, _DAYS_IN_MONTH.
    assert (Hk : (Z.to_nat (month - 1) < 12)%nat) by lia.
    revert Hk. generalize (Z.to_nat (month - 1)) as k. intros k Hk.
    do 12 (destruct k as [|k]; [simpl; lia|]). lia. }
  unfold MINYEAR, MAXYEAR in Hy.
  unfold strptime. rewrite match_format_formatted;
    [|lia|lia|lia|Z.div_mod_to_equations; lia..].
  rewrite bind_Some. cbv beta iota.
  assert (Hvalid : (MINYEAR <=? year) && (day <=? _days_in_month year month)
                   && (s mod 86400 mod 60 <=? 59) = true).
  { rewrite !andb_true_iff, !Z.leb_le. unfold MINYEAR.
    split_and!; [lia|lia|Z.div_mod_to_equations; lia]. }
  rewrite Hvalid. f_equal. unfold utc_seconds. rewrite Hord.
  unfold EPOCH_ORDINAL. Z.div_mod_to_equations. lia.
Qed.

End round_trip_facts.

(** C9, as stated, fails: the first millisecond of the year 10000 is an
    epoch-milliseconds value that [convert_timestamp] does not format;
    [fromtimestamp] raises, and nothing is returned for [parse_datetime] to
    parse. *)
Lemma round_trip_counterexample : ¬ round_trips 253402300800000.
Proof. intros (s & Hs & _). vm_compute in Hs. discriminate. Qed.

(** C9, amended. For every epoch-milliseconds value whose second lies in
    the years 1000 to 9999, [convert_timestamp] returns a string and
    [parse_datetime] on it returns the UTC instant of the value truncated
    to the second, never [None]. *)
Theorem convert_parse_round_trip (timestamp_ms : Z) :
  Datetime.YEAR_1000_SECONDS <= timestamp_ms / 1000 <= Datetime.MAX_SECONDS ->
  round_trips timestamp_ms.
Proof.
  intros [Hlo Hhi].
  assert (Hr : Datetime.seconds_in_range (timestamp_ms / 1000) = true).
  { unfold Datetime.seconds_in_range. apply andb_true_iff.
    assert (Datetime.MIN_SECONDS <= Datetime.YEAR_1000_SECONDS)
      by (by vm_compute).
    split; apply Z.leb_le; [lia|done]. }
  exists (Datetime.strftime (timestamp_ms / 1000)). split.
  - unfold convert_timestamp. cbv zeta. by rewrite Hr.
  - unfold parse_datetime. by rewrite strptime_strftime.
Qed.

Lemma convert_parse_round_trip_witness : round_trips 1709251199999.
Proof. apply convert_parse_round_trip. compute_done. Defined.

(** ** [process_data] *)

Section process_data_facts.
Implicit Types (data : list item_t) (read : read_t) (output rows : list row).
Implicit Types (price_per_kw : float).

Lemma for_each_app {A St : Type} (body : St -> A -> result St)
    (xs ys : list A) (st : St) :
  for_each body (xs ++ ys) st = for_each body xs st ≫= for_each body ys.
Proof.
  revert st. induction xs as [|x xs IH]; intros st; simpl; [done|].
  destruct (body st x); simpl; [apply IH|done].
Qed.

(** Nested loops are one loop over the concatenation. *)
Lemma for_each_bind {A B St : Type} (body : St -> B -> result St)
    (inner : A -> list B) (xs : list A) (st : St) :
  for_each (fun st x => for_each body (inner x) st) xs st
  = for_each body (xs ≫= inner) st.
Proof.
  revert st. induction xs as [|x xs IH]; intros st; simpl; [done|].
  rewrite for_each_app. destruct (for_each body (inner x) st); simpl; [|done].
  apply IH.
Qed.

Lemma for_each_ext {A St : Type} (f g : St -> A -> result St)
    (xs : list A) (st : St) :
  (forall st x, f st x = g st x) -> for_each f xs st = for_each g xs st.
Proof.
  intros Hfg. revert st. induction xs as [|x xs IH]; intros st; simpl; [done|].
  rewrite Hfg. destruct (g st x); simpl; [apply IH|done].
Qed.

Lemma for_each_fmap {A B St : Type} (body : St -> B -> result St)
    (f : A -> B) (xs : list A) (st : St) :
  for_each body (f <$> xs) st = for_each (fun st x => body st (f x)) xs st.
Proof.
  revert st. induction xs as [|x xs IH]; intros st; simpl; [done|].
  destruct (body st (f x)); simpl; [apply IH|done].
Qed.

(** The three loops are one loop over the steps. *)
Lemma process_data_flat data price_per_kw :
  process_data data price_per_kw
  = for_each (process_step price_per_kw) (read_steps data) [].
Proof.
  unfold process_data, read_steps.
  rewrite <- for_each_bind. apply for_each_ext.
  intros output item. destruct (readings item) as [| |l]; simpl; [done..|].
  rewrite <- for_each_bind. apply for_each_ext.
  intros output' reading. destruct (reads reading) as [| |l']; simpl;
    [done..|].
  by rewrite for_each_fmap.
Qed.

Lemma omap_list_bind {A B C : Type} (f : B -> option C) (g : A -> list B)
    (l : list A) :
  omap f (l ≫= g) = l ≫= (fun x => omap f (g x)).
Proof.
  induction l as [|x l IH]; csimpl; [done|]. by rewrite omap_app, IH.
Qed.

Lemma omap_id_Some {A : Type} (l : list A) : omap id (Some <$> l) = l.
Proof. induction l as [|x l IH]; csimpl; [done|]. by rewrite IH. Qed.

(** The reads among the steps are the reads of the payload. *)
Lemma read_steps_reads data : omap id (read_steps data) = all_reads data.
Proof.
  unfold read_steps, all_reads. rewrite omap_list_bind.
  apply list_bind_ext; [|done]. intros item.
  destruct (readings item) as [| |l]; csimpl; [done..|].
  rewrite omap_list_bind. apply list_bind_ext; [|done]. intros reading.
  destruct (reads reading) as [| |l']; csimpl; [done..|].
  apply omap_id_Some.
Qed.

Lemma read_steps_all_reads data (l : list read_t) :
  read_steps data = Some <$> l -> l = all_reads data.
Proof.
  intros Hl. by rewrite <- read_steps_reads, Hl, omap_id_Some.
Qed.

Lemma process_read_eq price_per_kw output read :
  process_read price_per_kw output read
  = (start_time ← read_start read;
     start_time_formatted ← convert_timestamp start_time;
     total ← read_total read;
     Ok (output ++ [ {| Start_Time := start_time_formatted;
                        Total := total;
                        Price := (total * price_per_kw)%float |} ])).
Proof.
  destruct read as [[| |[[| |start_time]]] [| |m]]; try reflexivity;
    unfold process_read; simpl;
    match goal with
    | |- context [convert_timestamp ?t] => by destruct (convert_timestamp t)
    end.
Qed.

(** Whether a step completes is the same at every price and after every
    output. *)
Lemma process_step_is_ok price_per_kw other_price output output' step :
  is_ok (process_step price_per_kw output step)
  = is_ok (process_step other_price output' step).
Proof.
  destruct step as [read|]; simpl; [|done]. rewrite !process_read_eq.
  destruct (read_start read) as [t|]; simpl; [|done].
  destruct (convert_timestamp t); simpl; [|done].
  by destruct (read_total read).
Qed.

Lemma process_steps_is_ok price_per_kw other_price
    (steps : list (option read_t)) output output' :
  is_ok (for_each (process_step price_per_kw) steps output)
  = is_ok (for_each (process_step other_price) steps output').
Proof.
  revert output output'.
  induction steps as [|step steps IH]; intros output output'; simpl; [done|].
  pose proof (process_step_is_ok price_per_kw other_price output output' step)
    as Hstep.
  destruct (process_step price_per_kw output step),
    (process_step other_price output' step); simpl in *;
    try discriminate Hstep; [apply IH|done].
Qed.

(** The loop over the steps: where it completes, every step was a read, and
    it appended one row for each. *)
Lemma process_steps_spec price_per_kw (steps : list (option read_t))
    output rows :
  for_each (process_step price_per_kw) steps output = Ok rows ->
  exists (l : list read_t) new,
    steps = Some <$> l
    /\ rows = output ++ new
    /\ Forall2 (row_of_read price_per_kw) new l.
Proof.
  revert output. induction steps as [|step steps IH]; intros output; simpl.
  - intros [= <-]. exists [], []. by rewrite app_nil_r.
  - destruct step as [read|]; simpl; [|done]. rewrite process_read_eq.
    destruct (read_start read) as [t|] eqn:Ht; simpl; [|done].
    destruct (convert_timestamp t) as [s|] eqn:Hs; simpl; [|done].
    destruct (read_total read) as [total|] eqn:Htotal; simpl; [|done].
    intros Hrows. destruct (IH _ Hrows) as (l & new & -> & -> & Hnew).
    exists (read :: l). eexists (_ :: new). rewrite <- app_assoc.
    split_and!; [done..|]. constructor; [|done].
    split_and!; simpl; [by exists t|done..].
Qed.

Lemma process_data_rows data price_per_kw rows :
  process_data data price_per_kw = Ok rows ->
  Forall2 (row_of_read price_per_kw) rows (all_reads data).
Proof.
  rewrite process_data_flat. intros Hrows.
  destruct (process_steps_spec _ _ _ _ Hrows) as (l & new & Hl & -> & Hnew).
  by rewrite <- (read_steps_all_reads _ _ Hl).
Qed.


(** Zero usage costs nothing at any finite unit price. *)
Lemma price_of_zero_total (price_per_kw : float) :
  is_finite price_per_kw = true -> (0 * price_per_kw =? 0)%float = true.
Proof.
  intros Hf. rewrite FloatAxioms.eqb_spec, FloatAxioms.mul_spec.
  unfold is_finite, is_nan, is_infinity in Hf.
  rewrite !FloatAxioms.eqb_spec, FloatAxioms.abs_spec in Hf.
  change (Prim2SF 0) with (S754_zero false).
  change (Prim2SF infinity) with (S754_infinity false) in Hf.
  destruct (Prim2SF price_per_kw) as [s|[|]| |s m e];
    try discriminate Hf; reflexivity.
Qed.

End process_data_facts.

(** C6, as stated, fails: at the negative unit price -0.15 the annotator
    raises nothing; it completes and stores the negative price -1.5. *)
Lemma negative_price_counterexample :
  (- sample_price <? 0)%float = true
  /\ process_data sample_payload (- sample_price)
     = Ok [ {| Start_Time := T1; Total := 10; Price := -1.5 |} ].
Proof. split; by vm_compute. Qed.

(** C6, amended. Where the price annotator completes, it has made one row
    for each read, in order, with [Price = Total * unit price] and [Total]
    the total of the read, 0.0 when it is missing or null; so a total of
    10.0 at 0.15 is priced 1.5 and a total of 0.0 is priced zero at every
    finite unit price. It checks nothing about the unit price and raises no
    error for it: whether it completes is the same at every unit price, and
    a negative or non-finite unit price is multiplied like any other. *)
Theorem process_data_price (data : list item_t) (price_per_kw : float) :
  (forall rows,
     process_data data price_per_kw = Ok rows ->
     Forall2 (row_of_read price_per_kw) rows (all_reads data))
  /\ (forall other_price,
        is_ok (process_data data other_price)
        = is_ok (process_data data price_per_kw))
  /\ read_total {| interval := Absent; metrics := Absent |} = Ok 0%float
  /\ read_total {| interval := Absent;
                   metrics := Present {| total := Null |} |} = Ok 0%float
  /\ (10 * sample_price = 1.5)%float
  /\ (is_finite price_per_kw = true -> (0 * price_per_kw =? 0)%float = true).
Proof.
  split_and!.
  - apply process_data_rows.
  - intros other_price. rewrite !process_data_flat.
    apply process_steps_is_ok.
  - reflexivity.
  - reflexivity.
  - reflexivity.
  - apply price_of_zero_total.
Qed.

(** * Further properties of the code *)

(** ** The merge store across keys and runs *)

Section merge_store_more.
Implicit Types (data existing rows : list row) (output_file : file_state).
Implicit Types (retain_days current_time cutoff : Z).

Lemma dict_get_of_elem (d : dict) (k : string) (v : row) :
  NoDup (dict_keys d) -> (k, v) ∈ d -> dict_get k d = Some v.
Proof.
  unfold dict_keys. induction d as [|[k0 v0] d IH]; simpl.
  - intros _ H. by apply elem_of_nil in H.
  - intros [Hk0 Hnd]%NoDup_cons [[= -> ->]|Hin]%elem_of_cons.
    + by rewrite decide_True.
    + rewrite decide_False; [by apply IH|].
      intros ->. apply Hk0. apply list_elem_of_fmap. by exists (k0, v).
Qed.

Lemma merged_value_get existing data e :
  e ∈ dict_values (merged_dict existing data) ->
  dict_get (Start_Time e) (merged_dict existing data) = Some e.
Proof.
  intros [[k v] [-> Hin]]%list_elem_of_fmap. simpl.
  pose proof (dict_wf_merged existing data) as [Hnd Hall].
  rewrite Forall_forall in Hall. specialize (Hall _ Hin). simpl in Hall.
  subst k. by apply dict_get_of_elem.
Qed.

Lemma merge_entries_distinct existing :
  NoDup (Start_Time <$> existing) ->
  dict_values (merge_entries [] existing) = existing.
Proof.
  intros Hnd.
  set (d := (fun e => (Start_Time e, e)) <$> existing).
  assert (Hv : dict_values d = existing).
  { unfold dict_values, d. rewrite <- list_fmap_compose.
    clear. induction existing as [|e l IH]; [done|].
    rewrite fmap_cons. simpl. by rewrite IH. }
  assert (Hk : dict_keys d = Start_Time <$> existing).
  { unfold dict_keys, d. by rewrite <- list_fmap_compose. }
  assert (Hwf : dict_wf d).
  { split; [by rewrite Hk|]. unfold d. apply Forall_fmap.
    by apply Forall_true. }
  rewrite <- Hv at 1. by rewrite (merge_entries_nil_values d Hwf).
Qed.

End merge_store_more.

(** X1. A snapshot row the batch does not touch is written back as it is:
    when the run completes, the last snapshot row of a key that no incoming
    row carries, with a timestamp inside the retention window, is among the
    written rows, and it is the only written row with that key. *)
Theorem save_to_json_keeps_untouched (data : list row)
    (output_file : file_state) (retain_days current_time : Z)
    (rows : list row) (entry : row) (t : Z) :
  save_to_json data output_file retain_days current_time
  = (Ok (), FileJSON rows) ->
  last_entry (Start_Time entry) (load_existing output_file) = Some entry ->
  Forall (fun e => Start_Time e ≠ Start_Time entry) data ->
  parse_datetime (Start_Time entry) = Some t ->
  current_time - retain_days * 86400000000 <= t ->
  entry ∈ rows
  /\ forall e, e ∈ rows -> Start_Time e = Start_Time entry -> e = entry.
Proof.
  intros (cutoff & Hc & _ & ->)%save_to_json_inv Hlast Hdata Ht Hfresh.
  apply retention_cutoff_inv in Hc as ->.
  assert (Hget : dict_get (Start_Time entry)
                   (merged_dict (load_existing output_file) data)
                 = Some entry).
  { unfold merged_dict. rewrite dict_get_merge, (last_entry_None _ _ Hdata).
    by rewrite dict_get_merge, Hlast. }
  split.
  - apply elem_of_filter_rows. split.
    + apply fresh_spec. by exists t.
    + apply dict_get_elem in Hget. apply list_elem_of_fmap.
      by exists (Start_Time entry, entry).
  - intros e [_ He]%elem_of_filter_rows Hkey.
    apply merged_value_get in He. rewrite Hkey, Hget in He. by injection He.
Qed.

Lemma save_to_json_keeps_untouched_witness :
  sample_row T1 10 ∈ [sample_row T1 10; sample_row T2 3]
  /\ forall e, e ∈ [sample_row T1 10; sample_row T2 3] ->
       Start_Time e = Start_Time (sample_row T1 10) -> e = sample_row T1 10.
Proof.
  apply (save_to_json_keeps_untouched [sample_row T2 3]
           (FileJSON [sample_row T1 10]) 30 sample_now _ _
           (1704067200 * 1000000)).
  - reflexivity.
  - reflexivity.
  - compute_done.
  - reflexivity.
  - compute_done.
Defined.

(** X2. A file [save_to_json] has written never stops a later run: after a
    run that completed, a run on the file it left, with a batch whose keys
    parse and a cutoff that is a [datetime], completes as well. *)
Theorem save_to_json_next_run_completes (data data' : list row)
    (output_file output_file' : file_state)
    (retain_days current_time retain_days' current_time' cutoff' : Z) :
  save_to_json data output_file retain_days current_time
  = (Ok (), output_file') ->
  Forall parses data' ->
  retention_cutoff current_time' retain_days' = Ok cutoff' ->
  exists rows',
    save_to_json data' output_file' retain_days' current_time'
    = (Ok (), FileJSON rows').
Proof.
  intros Hsave Hdata' Hc'.
  assert (Hfile : exists rows, output_file' = FileJSON rows).
  { unfold save_to_json in Hsave. destruct (filtered_data _ _ _ _); [|done].
    injection Hsave as <-. by eexists. }
  destruct Hfile as [rows ->].
  apply save_to_json_inv in Hsave as (cutoff & _ & _ & ->).
  eexists. apply (save_to_json_Ok _ _ _ _ _ Hc'). simpl.
  apply Forall_app. split; [|done].
  rewrite Forall_forall. intros e [He _]%elem_of_filter_rows.
  apply fresh_spec in He as (t & Ht & _). unfold parses. by rewrite Ht.
Qed.

Lemma save_to_json_next_run_completes_witness :
  exists rows',
    save_to_json [sample_row T2 3]
      (FileJSON [sample_row T1 12]) 1 (sample_now + 86400000000)
    = (Ok (), FileJSON rows').
Proof.
  apply (save_to_json_next_run_completes [sample_row T1 12] [sample_row T2 3]
           FileMissing (FileJSON [sample_row T1 12]) 30 sample_now
           1 (sample_now + 86400000000) sample_now).
  - reflexivity.
  - compute_done.
  - reflexivity.
Defined.

(** X3. With an empty batch the run only prunes: a snapshot whose keys are
    distinct and parse is rewritten as its rows inside the retention window,
    unchanged and in the order they had. *)
Theorem save_to_json_empty_batch_prunes (existing : list row)
    (retain_days current_time cutoff : Z) :
  NoDup (Start_Time <$> existing) ->
  Forall parses existing ->
  retention_cutoff current_time retain_days = Ok cutoff ->
  save_to_json [] (FileJSON existing) retain_days current_time
  = (Ok (), FileJSON (filter_rows (fresh cutoff) existing)).
Proof.
  intros Hnd Hall Hc.
  rewrite (save_to_json_Ok _ _ _ _ _ Hc); simpl.
  - unfold merged_dict. simpl. by rewrite merge_entries_distinct.
  - by rewrite app_nil_r.
Qed.

Lemma save_to_json_empty_batch_prunes_witness :
  save_to_json [] (FileJSON [sample_row T1 12; sample_row T2 3]) 1 sample_now
  = (Ok (), FileJSON [sample_row T2 3]).
Proof.
  apply (save_to_json_empty_batch_prunes [sample_row T1 12; sample_row T2 3]
           1 sample_now (sample_now - 86400000000)).
  - compute_done.
  - compute_done.
  - reflexivity.
Defined.

(** X4. [save_to_json] writes no row it was not given and no more rows than
    it was given: every written row is a row of the snapshot or of the
    batch, and their number is at most the number of those. *)
Theorem save_to_json_writes_given_rows (data : list row)
    (output_file : file_state) (retain_days current_time : Z)
    (rows : list row) :
  save_to_json data output_file retain_days current_time
  = (Ok (), FileJSON rows) ->
  (forall e, e ∈ rows -> e ∈ load_existing output_file ++ data)
  /\ (length rows <= length (load_existing output_file) + length data)%nat.
Proof.
  intros (cutoff & _ & _ & ->)%save_to_json_inv. split.
  - intros e [_ He]%elem_of_filter_rows. by apply merged_values_sub.
  - unfold filter_rows. etrans; [apply length_filter|].
    pose proof (dict_wf_merged (load_existing output_file) data) as [Hnd _].
    unfold dict_values. rewrite length_fmap.
    rewrite <- (length_fmap fst), <- length_app.
    rewrite <- (length_fmap Start_Time (load_existing output_file ++ data)).
    apply submseteq_length, NoDup_submseteq; [done|].
    intros k Hk. rewrite merged_dict_app in Hk.
    apply dict_keys_merge_elem in Hk as [Hk|Hk]; [|done].
    by apply elem_of_nil in Hk.
Qed.

Lemma save_to_json_writes_given_rows_witness :
  (forall e, e ∈ [sample_row T1 12; sample_row T2 3] ->
     e ∈ load_existing (FileJSON [sample_row T1 10])
         ++ [sample_row T1 12; sample_row T2 3])
  /\ (length [sample_row T1 12; sample_row T2 3]
      <= length (load_existing (FileJSON [sample_row T1 10]))
         + length [sample_row T1 12; sample_row T2 3])%nat.
Proof.
  apply (save_to_json_writes_given_rows [sample_row T1 12; sample_row T2 3]
           (FileJSON [sample_row T1 10]) 30 sample_now).
  reflexivity.
Defined.

(** ** Keys and seconds *)





(** ** What [parse_datetime] accepts *)

Section parse_facts.
Import Datetime.

Lemma orelse_Some {A : Type} (x y : option A) (v : A) :
  x <|> y = Some v -> x = Some v \/ y = Some v.
Proof. destruct x; simpl; auto. Qed.

Lemma alt2_Some (p1 p2 : ascii -> bool) (s r : string) (v : Z) :
  alt2 p1 p2 s = Some (v, r) ->
  exists a b, p1 a = true /\ p2 b = true
              /\ v = 10 * digit_val a + digit_val b.
Proof.
  destruct s as [|a [|b s]]; simpl; try done.
  destruct (p1 a) eqn:Ha, (p2 b) eqn:Hb; simpl; try done.
  intros [= <- <-]. by exists a, b.
Qed.

Lemma alt1_Some (p : ascii -> bool) (s r : string) (v : Z) :
  alt1 p s = Some (v, r) -> exists a, p a = true /\ v = digit_val a.
Proof.
  destruct s as [|a s]; simpl; try done.
  destruct (p a) eqn:Ha; try done. intros [= <- <-]. by exists a.
Qed.

Lemma alt_blank_Some (p : ascii -> bool) (s r : string) (v : Z) :
  alt_blank p s = Some (v, r) -> exists b, p b = true /\ v = digit_val b.
Proof.
  destruct s as [|a [|b s]]; simpl; try done.
  destruct (is_char " " a), (p b) eqn:Hb; simpl; try done.
  intros [= <- <-]. by exists b.
Qed.

Lemma cls_bounds (lo hi : Z) (c : ascii) :
  cls lo hi c = true -> lo <= digit_val c <= hi.
Proof.
  unfold cls, digit_val. rewrite andb_true_iff, !Z.leb_le. lia.
Qed.

Lemma is_char_val (x c : ascii) :
  is_char x c = true -> digit_val c = digit_val x.
Proof. unfold is_char, digit_val. rewrite Z.eqb_eq. lia. Qed.

(** The value of a group lies within what its alternatives admit. *)
Ltac group_bounds H :=
  repeat (apply orelse_Some in H as [H|H]);
  first [ apply alt2_Some in H as (? & ? & ? & ? & ->)
        | apply alt1_Some in H as (? & ? & ->)
        | apply alt_blank_Some in H as (? & ? & ->) ];
  repeat match goal with
  | E : is_digit _ = true |- _ => apply cls_bounds in E
  | E : cls _ _ _ = true |- _ => apply cls_bounds in E
  | E : is_char _ _ = true |- _ =>
      apply is_char_val in E;
      match type of E with
      | _ = ?rhs => let v := eval vm_compute in rhs in change rhs with v in E
      end
  end;
  lia.

Lemma re_Y_bounds (s r : string) (v : Z) :
  re_Y s = Some (v, r) -> 0 <= v <= 9999.
Proof.
  unfold re_Y. destruct s as [|a [|b [|c [|d s]]]]; try done.
  destruct (is_digit a) eqn:Ha, (is_digit b) eqn:Hb, (is_digit c) eqn:Hc,
    (is_digit d) eqn:Hd; simpl; try done.
  intros [= <- <-].
  apply cls_bounds in Ha, Hb, Hc, Hd. lia.
Qed.

Lemma re_m_bounds (s r : string) (v : Z) :
  re_m s = Some (v, r) -> 1 <= v <= 12.
Proof. unfold re_m. intros H. group_bounds H. Qed.

Lemma re_d_bounds (s r : string) (v : Z) :
  re_d s = Some (v, r) -> 1 <= v <= 31.
Proof. unfold re_d. intros H. group_bounds H. Qed.

Lemma re_H_bounds (s r : string) (v : Z) :
  re_H s = Some (v, r) -> 0 <= v <= 23.
Proof. unfold re_H. intros H. group_bounds H. Qed.

Lemma re_M_bounds (s r : string) (v : Z) :
  re_M s = Some (v, r) -> 0 <= v <= 59.
Proof. unfold re_M. intros H. group_bounds H. Qed.

Lemma re_S_bounds (s r : string) (v : Z) :
  re_S s = Some (v, r) -> 0 <= v <= 61.
Proof. unfold re_S. intros H. group_bounds H. Qed.

End parse_facts.

Section parse_range_facts.
Import Datetime.

Lemma month_days (year month : Z) :
  1 <= month <= 12 ->
  0 <= _days_before_month year month
  /\ _days_before_month year month + _days_in_month year month
     <= 365 + (if _is_leap year then 1 else 0).
Proof.
  intros Hm. unfold _days_before_month, _days_in_month.
  apply (Z_range_ind
    (fun m =>
       0 <= table _DAYS_BEFORE_MONTH m
            + (if (2 <? m) && _is_leap year then 1 else 0)
       /\ table _DAYS_BEFORE_MONTH m
          + (if (2 <? m) && _is_leap year then 1 else 0)
          + (if (m =? 2) && _is_leap year then 29
             else table _DAYS_IN_MONTH m)
          <= 365 + (if _is_leap year then 1 else 0)) 1 12); [|lia].
  intros k Hk.
  do 12 (destruct k as [|k]; [destruct (_is_leap year); by vm_compute|]).
  lia.
Qed.

(** The ordinal of a date of the calendar is one a [date] can hold. *)
Lemma _ymd2ord_bounds (year month day : Z) :
  MINYEAR <= year <= MAXYEAR ->
  1 <= month <= 12 ->
  1 <= day <= _days_in_month year month ->
  1 <= _ymd2ord year month day <= 3652059.
Proof.
  unfold MINYEAR, MAXYEAR. intros Hy Hm Hd.
  destruct (month_days year month Hm) as [Hb0 Hb].
  unfold _ymd2ord.
  destruct (decide (year = 9999)) as [->|Hne].
  - change (_is_leap 9999) with false in Hb. cbv iota in Hb.
    change (_days_before_year 9999) with 3651694. lia.
  - assert (0 <= _days_before_year year
            /\ _days_before_year year + 366 <= 3652059).
    { unfold _days_before_year. cbv zeta. Z.div_mod_to_equations. lia. }
    revert Hb Hd. generalize (_days_in_month year month) as dim.
    intros dim Hb Hd. destruct (_is_leap year); cbv iota in Hb; lia.
Qed.

Lemma strptime_range (s : string) (t : Z) :
  strptime s = Some t -> MIN_SECONDS <= t <= MAX_SECONDS.
Proof.
  unfold strptime, match_format. intros H.
  repeat match type of H with
  | context [?x ≫= _] =>
      match x with
      | re_Y _ => idtac | re_m _ => idtac | re_d _ => idtac
      | re_H _ => idtac | re_M _ => idtac | re_S _ => idtac
      | lit _ _ => idtac | re_spaces _ => idtac
      end;
      let E := fresh "E" in
      destruct x as [[? ?]|] eqn:E || destruct x eqn:E;
      simpl in H; [|discriminate H]
  end.
  match type of H with
  | context [match ?s with EmptyString => _ | String _ _ => _ end] =>
      destruct s; simpl in H; [|discriminate H]
  end.
  destruct (_ && _) eqn:Hvalid; [|discriminate H].
  injection H as <-.
  rewrite !andb_true_iff, !Z.leb_le in Hvalid.
  destruct Hvalid as [[Hyear Hday] Hsec].
  repeat match goal with
  | E : re_Y _ = Some _ |- _ => apply re_Y_bounds in E
  | E : re_m _ = Some _ |- _ => apply re_m_bounds in E
  | E : re_d _ = Some _ |- _ => apply re_d_bounds in E
  | E : re_H _ = Some _ |- _ => apply re_H_bounds in E
  | E : re_M _ = Some _ |- _ => apply re_M_bounds in E
  | E : re_S _ = Some _ |- _ => apply re_S_bounds in E
  end.
  match goal with
  | |- _ <= utc_seconds ?y ?m ?d _ _ _ <= _ =>
      pose proof (_ymd2ord_bounds y m d) as Hord
  end.
  unfold MINYEAR, MAXYEAR in *.
  unfold utc_seconds.
  assert (Hb : MIN_SECONDS = -62135596800 /\ MAX_SECONDS = 253402300799)
    by (by vm_compute).
  destruct Hb as [-> ->]. unfold EPOCH_ORDINAL. lia.
Qed.

End parse_range_facts.

(** X7. [parse_datetime] never answers an instant a [datetime] cannot hold:
    whatever string it accepts, the instant is a whole second between
    0001-01-01 00:00:00 and 9999-12-31 23:59:59. *)
Theorem parse_datetime_range (date_str : string) (t : Z) :
  parse_datetime date_str = Some t ->
  MIN_DATETIME <= t <= MAX_DATETIME /\ t mod 1000000 = 0.
Proof.
  unfold parse_datetime.
  destruct (Datetime.strptime date_str) as [s|] eqn:Hs; [|done].
  intros [= <-]. apply strptime_range in Hs.
  unfold MIN_DATETIME, MAX_DATETIME. split; [lia|].
  apply Z.mod_mul. lia.
Qed.

Lemma parse_datetime_range_witness :
  MIN_DATETIME <= 1709251199 * 1000000 <= MAX_DATETIME
  /\ (1709251199 * 1000000) mod 1000000 = 0.
Proof.
  apply (parse_datetime_range "2024-2-29  23:59:59"). reflexivity.
Defined.

(** ** The window of a fetch *)

(** X8. The window [calculate_date_range] answers ends on the day of the
    clock reading, at 23:59:59 with the microseconds of the reading, so
    never before the reading, and it starts [days - 1] days earlier to the
    microsecond: a window for [days = 1] has its start at its end, and one
    for [days < 1] starts after it ends. *)
Theorem calculate_date_range_shape (now days start_date end_date : Z) :
  calculate_date_range now days = Ok (start_date, end_date) ->
  now <= end_date
  /\ end_date / DAY = now / DAY
  /\ end_date mod DAY = 86399 * 1000000 + now mod 1000000
  /\ end_date - start_date = (days - 1) * DAY
  /\ (start_date = end_date <-> days = 1)
  /\ (start_date <= end_date <-> 1 <= days).
Proof.
  unfold calculate_date_range, timedelta_days, datetime_sub. cbv zeta.
  destruct (_ && _); simpl; [|done].
  destruct (_ && _); simpl; [|done].
  intros [= <- <-]. unfold replace_time, DAY.
  split_and!; try (Z.div_mod_to_equations; lia).
Qed.

Lemma calculate_date_range_shape_witness :
  sample_now + 3723000001 <= sample_now + 86399000001
  /\ (sample_now + 86399000001) / DAY = (sample_now + 3723000001) / DAY
  /\ (sample_now + 86399000001) mod DAY
     = 86399 * 1000000 + (sample_now + 3723000001) mod 1000000
  /\ sample_now + 86399000001 - (sample_now + 86399000001 - 6 * DAY)
     = (7 - 1) * DAY
  /\ (sample_now + 86399000001 - 6 * DAY = sample_now + 86399000001
      <-> 7 = 1)
  /\ (sample_now + 86399000001 - 6 * DAY <= sample_now + 86399000001
      <-> 1 <= 7).
Proof.
  apply (calculate_date_range_shape (sample_now + 3723000001) 7).
  reflexivity.
Defined.

(** X9. [calculate_date_range] completes whenever the clock reading is a
    [datetime] and the day [days] days before it still is one, [days >= 1];
    the window it answers then lies within the last [days] days before the
    end of today. *)
Theorem calculate_date_range_completes (now days : Z) :
  MIN_DATETIME <= now <= MAX_DATETIME ->
  1 <= days ->
  MIN_DATETIME <= now - days * DAY ->
  exists start_date end_date,
    calculate_date_range now days = Ok (start_date, end_date)
    /\ now - days * DAY < start_date <= end_date.
Proof.
  intros Hnow Hdays Hmin.
  assert (Hb : MIN_DATETIME = -62135596800000000
               /\ MAX_DATETIME = 253402300799999999) by (by vm_compute).
  destruct Hb as [Hlo Hhi].
  unfold calculate_date_range, timedelta_days, datetime_sub. cbv zeta.
  unfold DAY in *.
  assert (H1 : (-999999999 <=? days - 1) && (days - 1 <=? 999999999) = true).
  { apply andb_true_iff. split; apply Z.leb_le; lia. }
  rewrite H1. simpl.
  set (end_date := replace_time now 23 59 59).
  assert (Hend : now <= end_date < now + 86400 * 1000000
                 /\ end_date <= MAX_DATETIME).
  { unfold end_date, replace_time, DAY. rewrite Hhi.
    Z.div_mod_to_equations. lia. }
  assert (H2 : (MIN_DATETIME <=? end_date - (days - 1) * 86400 * 1000000)
               && (end_date - (days - 1) * 86400 * 1000000 <=? MAX_DATETIME)
               = true).
  { apply andb_true_iff. split; apply Z.leb_le; lia. }
  rewrite H2. do 2 eexists. split; [done|]. lia.
Qed.

Lemma calculate_date_range_completes_witness :
  exists start_date end_date,
    calculate_date_range sample_now 7 = Ok (start_date, end_date)
    /\ sample_now - 7 * DAY < start_date <= end_date.
Proof.
  apply calculate_date_range_completes; compute_done.
Defined.

(** ** The configuration *)

(** X10. [load_config] of [ElectricUsagewithPrices.py] fails on every
    configuration: it passes the keyword [interval], which [Config.__init__]
    of that script does not have, so the call raises [TypeError] whatever
    the file holds. *)
Theorem load_config_with_prices_raises (config_data : gmap string yaml) :
  PricesConfig.load_config config_data = Raise TypeError.
Proof.
  unfold PricesConfig.load_config, PricesConfig.Config_init, bind_keywords.
  rewrite decide_False; [done|].
  intros [Hkw _]. rewrite !Forall_cons in Hkw.
  destruct Hkw as (_ & _ & _ & _ & _ & _ & _ & _ & _ & _ & Hinterval & _).
  simpl in Hinterval. revert Hinterval. compute_done.
Qed.

(** The sibling [load_config] of [ElectricRawJSON.py], whose [Config] has
    the parameter, completes on every configuration; a key the file lacks
    is read as [None]. *)
Lemma load_config_raw_json_completes (config_data : gmap string yaml) :
  exists config,
    RawJSONConfig.load_config config_data = Ok config
    /\ RawJSONConfig.interval config = yaml_get config_data "interval"
    /\ RawJSONConfig.extract_days config
       = yaml_get config_data "extract_days".
Proof.
  unfold RawJSONConfig.load_config, RawJSONConfig.Config_init, bind_keywords.
  rewrite decide_True.
  - eexists. split; [done|]. split; reflexivity.
  - split; repeat constructor; compute_done.
Qed.

(** ** The time-series sink *)

Lemma for_each_st_app {A St : Type} (body : St -> A -> St * option exn)
    (xs ys : list A) (st : St) :
  for_each_st body (xs ++ ys) st
  = match for_each_st body xs st with
    | (st', None) => for_each_st body ys st'
    | (st', Some e) => (st', Some e)
    end.
Proof.
  revert st. induction xs as [|x xs IH]; intros st; simpl; [done|].
  destruct (body st x) as [st' [e|]]; [done|]. apply IH.
Qed.

Lemma for_each_st_bind {A B St : Type} (body : St -> B -> St * option exn)
    (inner : A -> list B) (xs : list A) (st : St) :
  for_each_st (fun st x => for_each_st body (inner x) st) xs st
  = for_each_st body (xs ≫= inner) st.
Proof.
  revert st. induction xs as [|x xs IH]; intros st; simpl; [done|].
  rewrite for_each_st_app.
  destruct (for_each_st body (inner x) st) as [st' [e|]]; [done|]. apply IH.
Qed.

Lemma for_each_st_ext {A St : Type} (f g : St -> A -> St * option exn)
    (xs : list A) (st : St) :
  (forall st x, f st x = g st x) ->
  for_each_st f xs st = for_each_st g xs st.
Proof.
  intros Hfg. revert st. induction xs as [|x xs IH]; intros st; simpl; [done|].
  rewrite Hfg. destruct (g st x) as [st' [e|]]; [done|]. apply IH.
Qed.

Lemma for_each_st_singleton {A St : Type}
    (body : St -> A -> St * option exn)
    (x : A) (st : St) :
  for_each_st body [x] st = body st x.
Proof. simpl. by destruct (body st x) as [st' [e|]]. Qed.

Section sink_facts.
Import RawInflux.
Variable utcfromtimestamp : Z -> result Z.

#[local] Abbreviation tagged := (option string * option string * option string * read_t)%type.
#[local] Abbreviation instant := (RawInflux.instant utcfromtimestamp).
#[local] Abbreviation point_of := (RawInflux.point_of utcfromtimestamp).
#[local] Abbreviation skip_of := (RawInflux.skip_of utcfromtimestamp).
#[local] Abbreviation check_read := (RawInflux.check_read utcfromtimestamp).
#[local] Abbreviation write_to_influxdb := (RawInflux.write_to_influxdb utcfromtimestamp).
#[local] Abbreviation check_step := (RawInflux.check_step utcfromtimestamp).
#[local] Abbreviation step_ok := (from_option (fun tr : tagged => is_ok (instant tr.2)) false).

Implicit Types (tr : tagged) (l : list tagged) (svc : service).
Implicit Types (steps : list (option tagged)).
Implicit Types (cutoff : Z) (json_data : list item_t).

(** The three loops are one loop over the steps. *)
Lemma loops_flat cutoff json_data (st : list Point * list message) :
  for_each_st (fun st item =>
    match iterable (get_or [] (readings item)) with
    | Raise e => (st, Some e)
    | Ok readings =>
        for_each_st (fun st reading =>
          match iterable (get_or [] (reads reading)) with
          | Raise e => (st, Some e)
          | Ok reads =>
              for_each_st
                (check_read cutoff (meterLocation item) (meterId reading)
                   (channel reading))
                reads st
          end)
          readings st
    end)
    json_data st
  = for_each_st (check_step cutoff) (loop_steps json_data) st.
Proof.
  unfold loop_steps. rewrite <- for_each_st_bind.
  apply for_each_st_ext. intros st' item.
  destruct (readings item) as [| |rs]; simpl; [done..|].
  rewrite <- for_each_st_bind. apply for_each_st_ext. intros st'' reading.
  destruct (reads reading) as [| |rds]; simpl; [done..|].
  rewrite <- for_each_st_bind. apply for_each_st_ext. intros st3 read.
  by rewrite for_each_st_singleton.
Qed.

(** The reads among the steps are the tagged reads of the payload. *)
Lemma loop_steps_reads json_data :
  omap id (loop_steps json_data) = tagged_reads json_data.
Proof.
  unfold loop_steps, tagged_reads. rewrite omap_list_bind.
  apply list_bind_ext; [|done]. intros item.
  destruct (readings item) as [| |rs]; csimpl; [done..|].
  rewrite omap_list_bind. apply list_bind_ext; [|done]. intros reading.
  destruct (reads reading) as [| |rds]; csimpl; [done..|].
  rewrite omap_list_bind. by apply list_bind_ext.
Qed.

Lemma check_read_Ok cutoff tr (points : list Point) (out : list message) :
  is_ok (instant tr.2) = true ->
  check_read cutoff tr.1.1.1 tr.1.1.2 tr.1.2 (points, out) tr.2
  = ((points ++ option_list (point_of cutoff tr),
      out ++ option_list (skip_of cutoff tr)), None).
Proof.
  destruct tr as [[[loc mid] ch] read]. simpl.
  unfold RawInflux.check_read, RawInflux.point_of, RawInflux.skip_of,
    RawInflux.instant. simpl.
  destruct read as [[| |[[| |start_time]]] [| |m]]; simpl; try done;
    (destruct (utcfromtimestamp start_time) as [timestamp|]; [|done]);
    intros _; destruct (timestamp <? cutoff); simpl; by rewrite app_nil_r.
Qed.

Lemma check_read_Raise cutoff tr (st : list Point * list message) :
  is_ok (instant tr.2) = false ->
  exists e,
    check_read cutoff tr.1.1.1 tr.1.1.2 tr.1.2 st tr.2 = (st, Some e).
Proof.
  destruct tr as [[[loc mid] ch] read], st as [points out]. simpl.
  unfold RawInflux.check_read, RawInflux.instant. simpl.
  destruct read as [[| |[[| |start_time]]] [| |m]]; simpl;
    try (by eexists);
    (destruct (utcfromtimestamp start_time) as [timestamp|e]; [done|]);
    by eexists.
Qed.

Lemma omap_cons_option_list {X Y : Type} (f : X -> option Y) (x : X) (xs : list X) :
  omap f (x :: xs) = option_list (f x) ++ omap f xs.
Proof. simpl. by destruct (f x). Qed.

(** Where every step is a read with an instant, the loop completes, with a
    point or a message for each. *)
Lemma loop_completes cutoff l (points : list Point) (out : list message) :
  Forall (fun tr => is_ok (instant tr.2) = true) l ->
  for_each_st (check_step cutoff) (Some <$> l) (points, out)
  = ((points ++ omap (point_of cutoff) l, out ++ omap (skip_of cutoff) l),
     None).
Proof.
  intros Hall. revert points out.
  induction Hall as [|tr l Htr _ IH]; intros points out.
  - simpl. by rewrite !app_nil_r.
  - cbn [for_each_st fmap list_fmap RawInflux.check_step].
    rewrite (check_read_Ok _ _ _ _ Htr), IH.
    by rewrite !omap_cons_option_list, !app_assoc.
Qed.

(** Where the loop completes, every step was a read with an instant. *)
Lemma loop_None cutoff steps (st st' : list Point * list message) :
  for_each_st (check_step cutoff) steps st = (st', None) ->
  Forall (fun step => step_ok step = true) steps.
Proof.
  revert st. induction steps as [|step steps IH]; intros st; [done|].
  cbn [for_each_st]. destruct step as [tr|]; simpl; [|done].
  destruct (is_ok (instant tr.2)) eqn:H0.
  - destruct st as [points out]. rewrite (check_read_Ok _ _ _ _ H0).
    intros Hrest. constructor; [done|]. by eapply IH.
  - by destruct (check_read_Raise cutoff tr st H0) as [e ->].
Qed.

Lemma steps_all_reads steps :
  Forall (fun step => step_ok step = true) steps ->
  steps = Some <$> omap id steps
  /\ Forall (fun tr => is_ok (instant tr.2) = true) (omap id steps).
Proof.
  induction 1 as [|[tr|] steps Hstep _ [IH1 IH2]]; csimpl in *;
    [done| |done].
  split; [by f_equal | by constructor].
Qed.

(** A payload on whose steps the loop completes: its steps are its tagged
    reads, each with an instant. *)
Lemma loop_None_reads cutoff json_data (st st' : list Point * list message) :
  for_each_st (check_step cutoff) (loop_steps json_data) st = (st', None) ->
  loop_steps json_data = Some <$> tagged_reads json_data
  /\ Forall (fun tr => is_ok (instant tr.2) = true) (tagged_reads json_data).
Proof.
  intros Hloop%loop_None%steps_all_reads. by rewrite loop_steps_reads in Hloop.
Qed.

Lemma point_of_Some cutoff tr (p : Point) :
  point_of cutoff tr = Some p ->
  instant tr.2 = Ok (time p) /\ cutoff <= time p
  /\ tag_location p = tr.1.1.1 /\ tag_meter_id p = tr.1.1.2
  /\ tag_channel p = tr.1.2.
Proof.
  destruct tr as [[[loc mid] ch] read]. unfold RawInflux.point_of. simpl.
  destruct (instant read) as [timestamp|]; [|done].
  destruct (timestamp <? cutoff) eqn:Hlt; [done|].
  intros [= <-]. simpl. apply Z.ltb_ge in Hlt. done.
Qed.

Lemma point_or_skip cutoff l :
  Forall (fun tr => is_ok (instant tr.2) = true) l ->
  (length (omap (point_of cutoff) l) + length (omap (skip_of cutoff) l)
   = length l)%nat.
Proof.
  induction 1 as [|tr l Htr _ IH]; [done|].
  rewrite !omap_cons_option_list, !length_app. simpl. rewrite <- IH.
  destruct tr as [[[loc mid] ch] read].
  unfold RawInflux.point_of, RawInflux.skip_of. simpl in *.
  destruct (instant read) as [timestamp|]; [|done].
  destruct (timestamp <? cutoff); simpl; lia.
Qed.

Lemma loop_prints cutoff steps (st : list Point * list message) :
  exists out,
    (for_each_st (check_step cutoff) steps st).1.2 = st.2 ++ out.
Proof.
  revert st. induction steps as [|step steps IH]; intros st.
  - exists []. simpl. by rewrite app_nil_r.
  - cbn [for_each_st]. destruct step as [tr|]; simpl.
    + destruct (is_ok (instant tr.2)) eqn:Htr.
      * destruct st as [points out]. rewrite (check_read_Ok _ _ _ _ Htr).
        destruct (IH (points ++ option_list (point_of cutoff tr),
                      out ++ option_list (skip_of cutoff tr))) as [o Ho].
        exists (option_list (skip_of cutoff tr) ++ o). rewrite Ho. simpl.
        by rewrite app_assoc.
      * destruct (check_read_Raise cutoff tr st Htr) as [e ->].
        exists []. simpl. by rewrite app_nil_r.
    + exists []. by rewrite app_nil_r.
Qed.

(** A run that completes on a decoded payload: the cutoff is a [datetime],
    every read has an instant, and the console and the sink hold the skips
    and the points of the reads. *)
Lemma write_to_influxdb_None json_data (retention_days now : Z) svc svc' :
  write_to_influxdb (JSON json_data) retention_days now svc = (svc', None) ->
  exists cutoff,
    retention_cutoff now retention_days = Ok cutoff
    /\ Forall (fun tr => is_ok (instant tr.2) = true) (tagged_reads json_data)
    /\ svc'
       = match omap (point_of cutoff) (tagged_reads json_data) with
         | [] =>
             {| printed :=
                  (printed svc ++ omap (skip_of cutoff) (tagged_reads json_data))
                  ++ [NoValidPoints];
                written := written svc |}
         | p :: points =>
             {| printed :=
                  printed svc ++ omap (skip_of cutoff) (tagged_reads json_data);
                written := written svc ++ [p :: points] |}
         end.
Proof.
  unfold RawInflux.write_to_influxdb.
  destruct (retention_cutoff now retention_days) as [cutoff|]; [|done].
  rewrite loops_flat.
  destruct (for_each_st _ _ _) as [[points out] [e|]] eqn:Hloop; [done|].
  destruct (loop_None_reads _ _ _ _ Hloop) as [Hsteps Hall].
  rewrite Hsteps, (loop_completes _ _ _ _ Hall) in Hloop.
  injection Hloop as <- <-. simpl. intros Hrun. exists cutoff.
  split_and!; [done..|].
  destruct (omap _ _); by injection Hrun as <-.
Qed.

(** X11. Retention in the time-series script: when [write_to_influxdb]
    completes on a decoded payload, the cutoff is a [datetime] and the sink
    was handed, in one batch and in payload order, the points of exactly
    the reads that are not before the cutoff (no batch at all when there is
    none): no point older than the cutoff is written, and every read has an
    instant and, when that is at or after the cutoff, its point, with its
    tags, in the batch. *)
Theorem write_to_influxdb_retention json_data (retention_days now : Z)
    svc svc' :
  write_to_influxdb (JSON json_data) retention_days now svc = (svc', None) ->
  exists cutoff,
    retention_cutoff now retention_days = Ok cutoff
    /\ let points := omap (point_of cutoff) (tagged_reads json_data) in
       written svc'
       = written svc ++ match points with [] => [] | _ :: _ => [points] end
       /\ (forall p, p ∈ points -> cutoff <= time p)
       /\ (forall tr,
             tr ∈ tagged_reads json_data ->
             exists timestamp,
               instant tr.2 = Ok timestamp
               /\ (cutoff <= timestamp ->
                   exists p,
                     p ∈ points /\ time p = timestamp
                     /\ tag_location p = tr.1.1.1
                     /\ tag_meter_id p = tr.1.1.2
                     /\ tag_channel p = tr.1.2)).
Proof.
  intros (cutoff & Hc & Hall & ->)%write_to_influxdb_None.
  exists cutoff. split; [done|]. intros points. split_and!.
  - fold points. clearbody points.
    destruct points; simpl; by rewrite ?app_nil_r.
  - intros p [tr [_ Hp]]%list_elem_of_omap.
    by apply point_of_Some in Hp as (_ & ? & _).
  - intros tr Hin. rewrite Forall_forall in Hall. specialize (Hall _ Hin).
    destruct (instant tr.2) as [timestamp|] eqn:Hts; [|done].
    exists timestamp. split; [done|]. intros Hle.
    destruct (point_of cutoff tr) as [p|] eqn:Hp.
    + exists p. pose proof (point_of_Some _ _ _ Hp) as (Hi & _ & ? & ? & ?).
      rewrite Hts in Hi. injection Hi as ->.
      split_and!; try done. apply list_elem_of_omap. by exists tr.
    + exfalso. destruct tr as [[[loc mid] ch] read].
      unfold RawInflux.point_of in Hp. simpl in *. rewrite Hts in Hp.
      destruct (timestamp <? cutoff) eqn:Hlt; [|done].
      apply Z.ltb_lt in Hlt. lia.
Qed.

(** X12. Every read is accounted for: when [write_to_influxdb] completes on
    a decoded payload, each read either has its point in the batch or is
    reported on the console as skipped, with an instant before the cutoff;
    the points written and the skips printed add up to the reads of the
    payload. *)
Theorem write_to_influxdb_accounts_for_reads json_data
    (retention_days now : Z) svc svc' :
  write_to_influxdb (JSON json_data) retention_days now svc = (svc', None) ->
  exists cutoff batches skips rest,
    retention_cutoff now retention_days = Ok cutoff
    /\ written svc' = written svc ++ batches
    /\ printed svc' = printed svc ++ skips ++ rest
    /\ Forall (fun m => exists timestamp,
                 m = SkippingPoint timestamp /\ timestamp < cutoff) skips
    /\ (rest = [] \/ rest = [NoValidPoints] /\ batches = [])
    /\ (length (concat batches) + length skips
        = length (tagged_reads json_data))%nat.
Proof.
  intros (cutoff & Hc & Hall & ->)%write_to_influxdb_None. exists cutoff.
  set (points := omap (point_of cutoff) (tagged_reads json_data)).
  set (skips := omap (skip_of cutoff) (tagged_reads json_data)).
  assert (Hskips : Forall (fun m => exists timestamp,
                     m = SkippingPoint timestamp /\ timestamp < cutoff) skips).
  { rewrite Forall_forall. intros m [tr [_ Hm]]%list_elem_of_omap.
    unfold RawInflux.skip_of in Hm.
    destruct (instant tr.2) as [timestamp|]; [|done].
    destruct (timestamp <? cutoff) eqn:Hlt; [|done].
    injection Hm as <-. exists timestamp. split; [done|].
    by apply Z.ltb_lt. }
  pose proof (point_or_skip cutoff _ Hall) as Hlen. fold points skips in Hlen.
  clearbody points skips. destruct points as [|p ps].
  - exists [], skips, [NoValidPoints].
    simpl. rewrite app_nil_r, app_assoc. split_and!; auto.
  - exists [p :: ps], skips, []. simpl in *.
    rewrite !app_nil_r. split_and!; auto.
Qed.

(** X13. One read without a usable start time blocks the whole batch: if a
    read of the payload has no ['start'], or a start the conversion raises
    on (or a null in the place of its interval or its metrics),
    [write_to_influxdb] ends with an exception and writes nothing, not even
    the points of the reads before it. *)
Theorem write_to_influxdb_bad_read json_data (retention_days now : Z)
    cutoff svc tr :
  retention_cutoff now retention_days = Ok cutoff ->
  tr ∈ tagged_reads json_data ->
  is_ok (instant tr.2) = false ->
  exists svc' e,
    write_to_influxdb (JSON json_data) retention_days now svc
    = (svc', Some e)
    /\ written svc' = written svc.
Proof.
  intros Hc Hin Hbad. unfold RawInflux.write_to_influxdb.
  rewrite Hc, loops_flat.
  destruct (for_each_st _ _ _) as [[points out] [e|]] eqn:Hloop;
    [by do 2 eexists|].
  destruct (loop_None_reads _ _ _ _ Hloop) as [_ Hall].
  rewrite Forall_forall in Hall. by rewrite (Hall _ Hin) in Hbad.
Qed.

(** X14. A run of [write_to_influxdb] calls the sink at most once, never
    with an empty batch and never when it raises, and only adds to what the
    console shows, whatever the payload, the retention and the clock. *)
Theorem write_to_influxdb_one_batch (data : payload)
    (retention_days now : Z) svc :
  (written (write_to_influxdb data retention_days now svc).1 = written svc
   \/ exists points,
        points ≠ []
        /\ (write_to_influxdb data retention_days now svc).2 = None
        /\ written (write_to_influxdb data retention_days now svc).1
           = written svc ++ [points])
  /\ exists out,
       printed (write_to_influxdb data retention_days now svc).1
       = printed svc ++ out.
Proof.
  unfold RawInflux.write_to_influxdb. destruct data as [|json_data].
  - simpl. split; [by left | by eexists].
  - destruct (retention_cutoff now retention_days) as [cutoff|e]; simpl.
    + rewrite loops_flat.
      destruct (loop_prints cutoff (loop_steps json_data)
                  ([], printed svc)) as [o Ho].
      destruct (for_each_st _ _ _) as [[points out] [e|]]; simpl in *.
      * split; [by left | by exists o].
      * destruct points as [|p points]; simpl.
        -- split; [by left|]. exists (o ++ [NoValidPoints]).
           by rewrite Ho, app_assoc.
        -- split; [|by exists o]. right. by exists (p :: points).
    + split; [by left|]. exists []. by rewrite app_nil_r.
Qed.

End sink_facts.

Lemma write_to_influxdb_retention_witness :
  exists cutoff,
    retention_cutoff sample_now 1 = Ok cutoff
    /\ length (RawInflux.written sample_raw_run.1) = 1%nat.
Proof.
  destruct (write_to_influxdb_retention exact_utcfromtimestamp
              sample_raw_data 1 sample_now empty_service sample_raw_run.1)
    as (cutoff & Hc & Hwritten & _).
  - by vm_compute.
  - exists cutoff. split; [exact Hc|]. rewrite Hwritten.
    injection Hc as <-. reflexivity.
Defined.

Lemma write_to_influxdb_accounts_for_reads_witness :
  exists cutoff batches skips rest,
    retention_cutoff sample_now 1 = Ok cutoff
    /\ RawInflux.written sample_raw_run.1
       = RawInflux.written empty_service ++ batches
    /\ RawInflux.printed sample_raw_run.1
       = RawInflux.printed empty_service ++ skips ++ rest
    /\ Forall (fun m => exists timestamp,
                 m = RawInflux.SkippingPoint timestamp
                 /\ timestamp < cutoff) skips
    /\ (rest = [] \/ rest = [RawInflux.NoValidPoints] /\ batches = [])
    /\ (length (concat batches) + length skips
        = length (RawInflux.tagged_reads sample_raw_data))%nat.
Proof.
  apply (write_to_influxdb_accounts_for_reads exact_utcfromtimestamp
           sample_raw_data 1 sample_now empty_service sample_raw_run.1).
  by vm_compute.
Defined.

Lemma write_to_influxdb_bad_read_witness :
  exists svc' e,
    RawInflux.write_to_influxdb exact_utcfromtimestamp
      (RawInflux.JSON
         sample_raw_data_bad)
      1 sample_now empty_service
    = (svc', Some e)
    /\ RawInflux.written svc' = RawInflux.written empty_service.
Proof.
  apply (write_to_influxdb_bad_read exact_utcfromtimestamp _ 1 sample_now
           (sample_now - 1 * 86400000000) empty_service
           (Some "home", Some "M1", Some "1", sample_raw_read Absent)%string).
  - reflexivity.
  - right. left.
  - reflexivity.
Defined.

(** ** When [save_to_json] completes, and what a wider window keeps *)

Lemma filter_rows_weaken (P Q : string -> bool) (entries : list row) :
  (forall k, P k -> Q k) ->
  filter_rows P entries `sublist_of` filter_rows Q entries.
Proof.
  intros HPQ. induction entries as [|e entries IH]; [done|].
  rewrite !filter_rows_cons.
  destruct (P (Start_Time e)) eqn:HP.
  - rewrite (Is_true_true_1 _ (HPQ _ (Is_true_true_2 _ HP))).
    by apply sublist_skip.
  - destruct (Q (Start_Time e)); [by apply sublist_cons | done].
Qed.

Lemma fresh_weaken (cutoff cutoff' : Z) (k : string) :
  cutoff' <= cutoff -> fresh cutoff k -> fresh cutoff' k.
Proof.
  intros Hle. rewrite !fresh_spec. intros (t & Ht & Hc). exists t.
  split; [done | lia].
Qed.

(** X15. [save_to_json] completes only when the snapshot is text, the
    cutoff is a [datetime] and every ['Start Time'] of the snapshot and of
    the batch parses; when it raises, the file is as it was. *)
Theorem save_to_json_completes_only_if (data : list row) (file : snapshot)
    (retain_days current_time : Z) :
  ((save_to_json_on data file retain_days current_time).1 = Ok () ->
   exists output_file,
     file = Decodable output_file
     /\ is_ok (retention_cutoff current_time retain_days) = true
     /\ Forall parses (load_existing output_file ++ data))
  /\ ((save_to_json_on data file retain_days current_time).1 ≠ Ok () ->
      (save_to_json_on data file retain_days current_time).2 = file).
Proof.
  destruct file as [|output_file]; [done|]. unfold save_to_json_on.
  destruct (save_to_json data output_file retain_days current_time)
    as [r f] eqn:Hsave. simpl. split.
  - intros ->. exists output_file. split; [done|].
    assert (Hf : exists rows, f = FileJSON rows).
    { unfold save_to_json in Hsave.
      destruct (filtered_data _ _ _ _); [|done].
      injection Hsave as <-. by eexists. }
    destruct Hf as [rows ->].
    apply save_to_json_inv in Hsave as (cutoff & Hc & Hall & _).
    by rewrite Hc.
  - unfold save_to_json in Hsave.
    destruct (filtered_data _ _ _ _) as [rows|e];
      injection Hsave as <- <-; [by intros []|done].
Qed.

(** X16. A wider retention window, or an earlier clock, never loses a row:
    of two completed runs on the same snapshot and batch, the one whose
    cutoff is not later writes every row the other writes, in the same
    order. *)
Theorem save_to_json_monotone (data : list row) (output_file : file_state)
    (retain_days current_time retain_days' current_time' : Z)
    (rows rows' : list row) :
  save_to_json data output_file retain_days current_time
  = (Ok (), FileJSON rows) ->
  save_to_json data output_file retain_days' current_time'
  = (Ok (), FileJSON rows') ->
  current_time' - retain_days' * 86400000000
  <= current_time - retain_days * 86400000000 ->
  rows `sublist_of` rows'.
Proof.
  intros (cutoff & Hc & _ & ->)%save_to_json_inv
         (cutoff' & Hc' & _ & ->)%save_to_json_inv Hle.
  apply retention_cutoff_inv in Hc as ->, Hc' as ->.
  apply filter_rows_weaken. intros k. by apply fresh_weaken.
Qed.

Lemma save_to_json_monotone_witness :
  [sample_row T2 3] `sublist_of` [sample_row T1 12; sample_row T2 3].
Proof.
  apply (save_to_json_monotone [sample_row T1 12; sample_row T2 3]
           FileMissing 1 sample_now 30 sample_now).
  - reflexivity.
  - reflexivity.
  - compute_done.
Defined.
